(** * CustomTable: the paging cursor and the row selection of the table component

    A shallow embedding of [frontend/src/components/CustomTable.tsx]
    (class [CustomTable]) and the properties of its paging and selection
    logic, and of the page that uses it,
    [frontend/src/pages/ArtifactList.tsx].

    Modelling decisions.

    - Numbers.  Page indices, offsets and sizes are integers; they are
      embedded in [Z].  JavaScript computes them in double precision, where
      every integer of [0, MAX_SAFE_INTEGER] is exact and rounding is
      monotone, so clamping [currentPage + offset] into [0, maxPageIndex]
      gives the same page as the exact sum does.
    - Arrays.  A JavaScript array is an object reached through a reference.
      [this.state.tokenList] holds such a reference and [setState] copies the
      reference, not the array, so the arrays live in a store ([heap]) and
      the state holds a location.  [push] writes the store.
    - [undefined].  An optional property, and an array read outside the
      array, is an [option].
    - Effects.  Methods run in a state-and-exception monad over the
      component instance.  [setState] is applied at once: the methods read
      [this.state] again only after their [await], when React has flushed
      the pending update, and no update made before the [await] touches the
      field they read ([tokenList]).
    - The one suspension point is [await this.props.reload(request)].  What
      the world does until the promise settles is an [Outcome]: the owner
      may unmount the table, and the promise resolves or rejects.
      Overlapping navigation is not modelled; the user interface disables
      the controls while the table is busy.
    - Calls that leave the component ([props.reload], [props.updateSelection],
      [e.stopPropagation]) are recorded in a trace. *)

From Stdlib Require Import ZArith Lia.
From stdpp Require Import base option list gmap strings.

Local Open Scope string_scope.
Local Open Scope list_scope.
Local Open Scope Z_scope.

(** ** JavaScript values used by the component *)

Definition MAX_SAFE_INTEGER : Z := 9007199254740991.

Module Js.

(** [if (s)] on a string: only the empty string is falsy. *)
Definition truthy (s : string) : bool := negb (String.eqb s "").

(** [b === true] on an optional boolean property. *)
Definition is_true (b : option bool) : bool :=
  match b with
  | Some true => true
  | _ => false
  end.

(** [a[i]]: undefined outside the array. *)
Definition index {A} (a : list A) (i : Z) : option A :=
  if 0 <=? i then a !! Z.to_nat i else None.

(** [a.length] *)
Definition length {A} (a : list A) : Z := Z.of_nat (List.length a).

(** [a.indexOf(x)] from position [k]: the first position holding [x], or -1. *)
Fixpoint indexOf_from (a : list string) (x : string) (k : Z) : Z :=
  match a with
  | [] => -1
  | y :: a' => if String.eqb y x then k else indexOf_from a' x (k + 1)
  end.

Definition indexOf (a : list string) (x : string) : Z := indexOf_from a x 0.

(** A relative position of [slice]: negative counts from the end, and the
    result is kept inside the array. *)
Definition relative (len i : Z) : Z :=
  if i <? 0 then Z.max (len + i) 0 else Z.min i len.

(** [a.slice(start, end)]; [end] undefined means the length. *)
Definition slice {A} (a : list A) (start : Z) (end_ : option Z) : list A :=
  let len := length a in
  let k := relative len start in
  let final := relative len (default len end_) in
  take (Z.to_nat (Z.max (final - k) 0)) (drop (Z.to_nat k) a).

(** [a.concat(b)] for an array [b], and [a.concat(x)] for a string [x]. *)
Definition concat {A} (a b : list A) : list A := a ++ b.
Definition concat1 {A} (a : list A) (x : A) : list A := a ++ [x].

End Js.

(** ** Data *)

Definition Error := string.

Module Row.
(** [interface Row]; [expandState] and the cells are not read by the
    methods below, the cells are kept as strings. *)
Record t := {
  error : option string;
  id : string;
  otherFields : list string;
}.
End Row.

(** The request handed to [props.reload]. *)
Record Request := {
  pageSize_ : Z;
  pageToken_ : option string;
}.

Module LoadRequest.
(** The argument of [reload]: an object that may carry [pageSize] and
    [pageToken].  A key that is present with the value [undefined] is
    [Some None]. *)
Record t := {
  pageSize : option Z;
  pageToken : option (option string);
}.
End LoadRequest.

(** [Object.assign(base, loadRequest)]: every key of [loadRequest] wins. *)
Definition Object_assign (base : Request) (loadRequest : LoadRequest.t) : Request :=
  {| pageSize_ := default (pageSize_ base) (LoadRequest.pageSize loadRequest);
     pageToken_ := default (pageToken_ base) (LoadRequest.pageToken loadRequest) |}.

(** How the promise of [props.reload] settles. *)
Inductive Settled :=
| Resolved (result : string)
| Rejected (reason : Error).

(** What happens between the call of [props.reload] and the resumption of the
    awaiting method. *)
Record Outcome := {
  unmounts : bool;   (* [componentWillUnmount] runs while the promise is pending *)
  settles : Settled;
}.

Module Props.
(** [interface CustomTableProps].  [updateSelection] tells whether the
    callback is supplied; [columns] and [emptyMessage] only feed the
    markup. *)
Record t := {
  disablePaging : option bool;
  disableSelection : option bool;
  reload : Request -> Outcome;
  rows : list Row.t;
  selectedIds : option (list string);
  updateSelection : bool;
  useRadioButtons : option bool;
}.
End Props.

Abbreviation loc := positive.

(** [interface CustomTableState]; [tokenList] is a reference to an array. *)
Record CustomTableState := {
  currentPage : Z;
  isBusy : bool;
  maxPageIndex : Z;
  pageSize : Z;
  tokenList : loc;
}.

Module Partial.
(** [Partial<CustomTableState>]: the keys a [setState] call carries. *)
Record t := {
  currentPage : option Z;
  isBusy : option bool;
  maxPageIndex : option Z;
  pageSize : option Z;
  tokenList : option loc;
}.
End Partial.

(** Calls that leave the component. *)
Inductive Call :=
| props_reload (request : Request)
| props_updateSelection (selectedIds : list string)
| stopPropagation.

(** The component instance, [this]. *)
Record CustomTable := {
  props : Props.t;
  state : CustomTableState;
  _isMounted : bool;
  heap : gmap loc (list string);
  trace : list Call;
}.

Definition with_state (s : CustomTableState) (this : CustomTable) : CustomTable :=
  {| props := props this; state := s; _isMounted := _isMounted this;
     heap := heap this; trace := trace this |}.

Definition with_isMounted (b : bool) (this : CustomTable) : CustomTable :=
  {| props := props this; state := state this; _isMounted := b;
     heap := heap this; trace := trace this |}.

Definition with_heap (h : gmap loc (list string)) (this : CustomTable) : CustomTable :=
  {| props := props this; state := state this; _isMounted := _isMounted this;
     heap := h; trace := trace this |}.

Definition with_trace (t : list Call) (this : CustomTable) : CustomTable :=
  {| props := props this; state := state this; _isMounted := _isMounted this;
     heap := heap this; trace := t |}.

(** The owner renders the table again with other props. *)
Definition with_props (p : Props.t) (this : CustomTable) : CustomTable :=
  {| props := p; state := state this; _isMounted := _isMounted this;
     heap := heap this; trace := trace this |}.

(** The array behind a reference.  A reference of the program always points
    to an array; the empty array stands for the others. *)
Definition deref (h : gmap loc (list string)) (l : loc) : list string :=
  default [] (h !! l).

(** The array [this.state.tokenList]. *)
Definition tokens (this : CustomTable) : list string :=
  deref (heap this) (tokenList (state this)).

(** ** The monad of methods *)

Inductive Completion (A : Type) :=
| Return (a : A)
| Throw (reason : Error).
Arguments Return {A} a.
Arguments Throw {A} reason.

Definition M (A : Type) : Type := CustomTable -> Completion A * CustomTable.

Definition ret {A} (a : A) : M A := fun this => (Return a, this).

Definition bind {A B} (m : M A) (k : A -> M B) : M B := fun this =>
  match m this with
  | (Return a, this') => k a this'
  | (Throw e, this') => (Throw e, this')
  end.

Notation "'let!' x ':=' c1 'in' c2" := (bind c1 (fun x => c2))
  (at level 10, x name, c1 at level 100, c2 at level 200).
Notation "c1 ';;' c2" := (bind c1 (fun _ => c2))
  (at level 100, c2 at level 200, right associativity).

(** [try { body } finally { cleanup }] *)
Definition try_finally {A} (body : M A) (cleanup : M unit) : M A := fun this =>
  match body this with
  | (c, this') =>
      match cleanup this' with
      | (Return _, this'') => (c, this'')
      | (Throw e, this'') => (Throw e, this'')
      end
  end.

Definition this_props : M Props.t := fun this => (Return (props this), this).
Definition this_state : M CustomTableState := fun this => (Return (state this), this).

(** Reading an array. *)
Definition read (l : loc) : M (list string) := fun this =>
  (Return (deref (heap this) l), this).

(** An array literal: a new array at an unused location. *)
Definition array_new (a : list string) : M loc := fun this =>
  let l := fresh (dom (heap this)) in
  (Return l, with_heap (<[l := a]> (heap this)) this).

(** [l.push(x)]: the array is changed in place. *)
Definition array_push (l : loc) (x : string) : M unit := fun this =>
  (Return tt, with_heap (<[l := deref (heap this) l ++ [x]]> (heap this)) this).

Definition call (c : Call) : M unit := fun this =>
  (Return tt, with_trace (trace this ++ [c]) this).

(** [this.setState(newState)]: the keys of [newState] replace those of the
    state. *)
Definition merge (newState : Partial.t) (s : CustomTableState) : CustomTableState :=
  {| currentPage := default (currentPage s) (Partial.currentPage newState);
     isBusy := default (isBusy s) (Partial.isBusy newState);
     maxPageIndex := default (maxPageIndex s) (Partial.maxPageIndex newState);
     pageSize := default (pageSize s) (Partial.pageSize newState);
     tokenList := default (tokenList s) (Partial.tokenList newState) |}.

Definition setState (newState : Partial.t) : M unit := fun this =>
  (Return tt, with_state (merge newState (state this)) this).

(** [componentWillUnmount()] *)
Definition componentWillUnmount : M unit := fun this =>
  (Return tt, with_isMounted false this).

(** [await this.props.reload(request)]: the call, then what happens while
    the method is suspended, then the settled promise. *)
Definition await_props_reload (request : Request) : M string := fun this =>
  let this := with_trace (trace this ++ [props_reload request]) this in
  let outcome := Props.reload (props this) request in
  let this := if unmounts outcome then snd (componentWillUnmount this) else this in
  match settles outcome with
  | Resolved result => (Return result, this)
  | Rejected reason => (Throw reason, this)
  end.

(** ** The methods of [CustomTable] *)

(** [constructor(props)] *)
Definition constructor (p : Props.t) : CustomTable :=
  let l : loc := fresh (dom (∅ : gmap loc (list string))) in
  {| props := p;
     state := {| currentPage := 0;
                 isBusy := false;
                 maxPageIndex := MAX_SAFE_INTEGER;
                 pageSize := 10;
                 tokenList := l |};
     _isMounted := true;
     heap := {[ l := [""] ]};
     trace := [] |}.

(** [setStateSafe(newState)] *)
Definition setStateSafe (newState : Partial.t) : M unit := fun this =>
  if _isMounted this then setState newState this else (Return tt, this).

(** [reload(loadRequest)] *)
Definition reload (loadRequest : LoadRequest.t) : M string :=
  let! s := this_state in
  let! a := read (tokenList s) in
  (* Override the current state with incoming request *)
  let request :=
    Object_assign {| pageSize_ := pageSize s;
                     pageToken_ := Js.index a (currentPage s) |}
                  loadRequest in
  let! result :=
    try_finally
      (setStateSafe {| Partial.currentPage := None;
                       Partial.isBusy := Some true;
                       Partial.maxPageIndex := None;
                       Partial.pageSize := Some (pageSize_ request);
                       Partial.tokenList := None |} ;;
       await_props_reload request)
      (setStateSafe {| Partial.currentPage := None;
                       Partial.isBusy := Some false;
                       Partial.maxPageIndex := None;
                       Partial.pageSize := None;
                       Partial.tokenList := None |}) in
  ret result.

(** The page [_pageChanged(offset)] goes to. *)
Definition newCurrentPage (s : CustomTableState) (offset : Z) : Z :=
  let newCurrentPage := currentPage s + offset in
  let newCurrentPage := Z.max 0 newCurrentPage in
  Z.min (maxPageIndex s) newCurrentPage.

(** [_pageChanged(offset)] *)
Definition _pageChanged (offset : Z) : M unit :=
  let! s := this_state in
  let newCurrentPage := newCurrentPage s offset in
  let maxPageIndex0 := maxPageIndex s in
  let! a := read (tokenList s) in
  let! newPageToken :=
    reload {| LoadRequest.pageSize := None;
              LoadRequest.pageToken := Some (Js.index a newCurrentPage) |} in
  let! maxPageIndex :=
    if Js.truthy newPageToken then
      (* If we're using the greatest yet known page, then the pageToken will be new. *)
      let! s' := this_state in
      let! a' := read (tokenList s') in
      (if newCurrentPage + 1 =? Js.length a'
       then array_push (tokenList s') newPageToken
       else ret tt) ;;
      ret maxPageIndex0
    else ret newCurrentPage in
  setStateSafe {| Partial.currentPage := Some newCurrentPage;
                  Partial.isBusy := None;
                  Partial.maxPageIndex := Some maxPageIndex;
                  Partial.pageSize := None;
                  Partial.tokenList := None |}.

(** [_resetToFirstPage(newPageToken)] *)
Definition _resetToFirstPage (newPageToken : option string) : M unit :=
  let! newTokenList := array_new [""] in
  let! maxPageIndex :=
    match newPageToken with
    | Some t =>
        if Js.truthy t
        then array_push newTokenList t ;; ret MAX_SAFE_INTEGER
        else ret 0
    | None => ret 0
    end in
  (* Reset state, since this invalidates the token list and page counter calculations *)
  setStateSafe {| Partial.currentPage := Some 0;
                  Partial.isBusy := None;
                  Partial.maxPageIndex := Some maxPageIndex;
                  Partial.pageSize := None;
                  Partial.tokenList := Some newTokenList |}.

(** [_requestRowsPerPage(event)], with [pageSize] the value of the event's
    target. *)
Definition _requestRowsPerPage (pageSize : Z) : M unit :=
  let! newPageToken :=
    reload {| LoadRequest.pageSize := Some pageSize;
              LoadRequest.pageToken := Some (Some "") |} in
  _resetToFirstPage (Some newPageToken).

(** [componentDidMount()] *)
Definition componentDidMount : M unit := _pageChanged 0.

(** [handleSelectAllClick(event)], with [checked] the state of the event's
    target. *)
Definition handleSelectAllClick (checked : bool) : M unit :=
  let! p := this_props in
  if Js.is_true (Props.disableSelection p) then
    (* This should be impossible to reach *)
    ret tt
  else
    let selectedIds := if checked then map Row.id (Props.rows p) else [] in
    if Props.updateSelection p
    then call (props_updateSelection selectedIds)
    else ret tt.

(** The selection [handleClick] computes when check boxes are used. *)
Definition toggled (selectedIds : list string) (id : string) : list string :=
  let selectedIndex := Js.indexOf selectedIds id in
  if selectedIndex =? -1
  then Js.concat1 selectedIds id
  else Js.concat (Js.slice selectedIds 0 (Some selectedIndex))
                 (Js.slice selectedIds (selectedIndex + 1) None).

(** [handleClick(e, id)] *)
Definition handleClick (id : string) : M unit :=
  let! p := this_props in
  if Js.is_true (Props.disableSelection p) then ret tt
  else
    let newSelected :=
      if default false (Props.useRadioButtons p) then [id]
      else
        let selectedIds := default [] (Props.selectedIds p) in
        toggled selectedIds id in
    (if Props.updateSelection p
     then call (props_updateSelection newSelected)
     else ret tt) ;;
    call stopPropagation.

(** [isSelected(id)] *)
Definition isSelected (id : string) : M bool :=
  let! p := this_props in
  ret match Props.selectedIds p with
      | Some selectedIds => negb (Js.indexOf selectedIds id =? -1)
      | None => false
      end.

(** The controls of [render()] that reach the methods above: whether the
    select-all check box of the header is drawn, whether the footer with the
    paging controls is drawn, and whether its two buttons are disabled. *)
Record Controls := {
  selectAllCheckbox : bool;
  footer : bool;
  backDisabled : bool;
  forwardDisabled : bool;
}.

Definition render (this : CustomTable) : Controls :=
  {| selectAllCheckbox :=
       negb (Js.is_true (Props.disableSelection (props this)))
       && negb (Js.is_true (Props.useRadioButtons (props this)));
     footer := negb (default false (Props.disablePaging (props this)));
     backDisabled := currentPage (state this) =? 0;
     forwardDisabled := maxPageIndex (state this) <=? currentPage (state this) |}.

(** ** Sequences of events *)

(** What can happen to a table: the owner renders it with other props,
    or one of its methods runs to completion. *)
Inductive Event :=
| Rerender (p : Props.t)
| DidMount
| PageChanged (offset : Z)
| RequestRowsPerPage (pageSize : Z)
| Reload (loadRequest : LoadRequest.t)
| SelectAllClick (checked : bool)
| Click (id : string)
| WillUnmount.

Definition step (this : CustomTable) (ev : Event) : CustomTable :=
  match ev with
  | Rerender p => with_props p this
  | DidMount => snd (componentDidMount this)
  | PageChanged offset => snd (_pageChanged offset this)
  | RequestRowsPerPage pageSize => snd (_requestRowsPerPage pageSize this)
  | Reload loadRequest => snd (reload loadRequest this)
  | SelectAllClick checked => snd (handleSelectAllClick checked this)
  | Click id => snd (handleClick id this)
  | WillUnmount => snd (componentWillUnmount this)
  end.

Definition run (this : CustomTable) (evs : list Event) : CustomTable :=
  foldl step this evs.

(** ** The instance after a method, in closed form *)

(** The request [reload(loadRequest)] hands to [props.reload]. *)
Definition reload_request (loadRequest : LoadRequest.t) (this : CustomTable) : Request :=
  Object_assign {| pageSize_ := pageSize (state this);
                   pageToken_ := Js.index (tokens this) (currentPage (state this)) |}
                loadRequest.

(** The request [_pageChanged(offset)] hands to [props.reload]. *)
Definition page_request (offset : Z) (this : CustomTable) : Request :=
  {| pageSize_ := pageSize (state this);
     pageToken_ := Js.index (tokens this) (newCurrentPage (state this) offset) |}.

(** The request [_requestRowsPerPage] hands to [props.reload]. *)
Definition size_request (pageSize : Z) : Request :=
  {| pageSize_ := pageSize; pageToken_ := Some "" |}.

Definition completion_of (s : Settled) : Completion string :=
  match s with
  | Resolved result => Return result
  | Rejected reason => Throw reason
  end.

(** The instance after [reload] has handed [request] to [props.reload] and
    the promise has settled. *)
Definition reloaded (request : Request) (this : CustomTable) : CustomTable :=
  let outcome := Props.reload (props this) request in
  let s := state this in
  {| props := props this;
     state :=
       if _isMounted this then
         {| currentPage := currentPage s;
            isBusy := unmounts outcome;
            maxPageIndex := maxPageIndex s;
            pageSize := pageSize_ request;
            tokenList := tokenList s |}
       else s;
     _isMounted := _isMounted this && negb (unmounts outcome);
     heap := heap this;
     trace := trace this ++ [props_reload request] |}.

(** The last statement of [_pageChanged]: the page and the bound it commits. *)
Definition commit_page (target maxPageIndex : Z) (this : CustomTable) : CustomTable :=
  if _isMounted this then
    with_state {| currentPage := target;
                  isBusy := isBusy (state this);
                  maxPageIndex := maxPageIndex;
                  pageSize := pageSize (state this);
                  tokenList := tokenList (state this) |} this
  else this.

(** The instance after [_pageChanged(offset)], by the way the promise
    settles. *)
Definition page_changed (offset : Z) (this : CustomTable) : CustomTable :=
  let request := page_request offset this in
  let target := newCurrentPage (state this) offset in
  let this1 := reloaded request this in
  match settles (Props.reload (props this) request) with
  | Rejected _ => this1
  | Resolved newPageToken =>
      if Js.truthy newPageToken then
        let this2 :=
          if target + 1 =? Js.length (tokens this)
          then with_heap (<[tokenList (state this) := tokens this ++ [newPageToken]]>
                            (heap this)) this1
          else this1 in
        commit_page target (maxPageIndex (state this)) this2
      else commit_page target target this1
  end.

(** The instance after [_resetToFirstPage(newPageToken)]. *)
Definition reset_to_first_page (newPageToken : string) (this : CustomTable) : CustomTable :=
  let l := fresh (dom (heap this)) in
  let more := Js.truthy newPageToken in
  let this' :=
    with_heap (<[l := if more then [""; newPageToken] else [""]]> (heap this)) this in
  if _isMounted this then
    with_state {| currentPage := 0;
                  isBusy := isBusy (state this);
                  maxPageIndex := if more then MAX_SAFE_INTEGER else 0;
                  pageSize := pageSize (state this);
                  tokenList := l |} this'
  else this'.

(** ** Sample tables and the invariant *)

(** Props of a table with three rows, all selected. *)
Definition sample_props (reload : Request → Outcome) : Props.t :=
  {| Props.disablePaging := None;
     Props.disableSelection := None;
     Props.reload := reload;
     Props.rows :=
       [ {| Row.error := None; Row.id := "id1"; Row.otherFields := [] |};
         {| Row.error := None; Row.id := "id2"; Row.otherFields := [] |};
         {| Row.error := None; Row.id := "id3"; Row.otherFields := [] |} ];
     Props.selectedIds := Some ["id1"; "id2"; "id3"];
     Props.updateSelection := true;
     Props.useRadioButtons := None |}.

Definition resolves (nextPageToken : string) : Request → Outcome :=
  fun _ => {| unmounts := false; settles := Resolved nextPageToken |}.

Definition rejects (reason : Error) : Request → Outcome :=
  fun _ => {| unmounts := false; settles := Rejected reason |}.

(** A new table whose data source answers every request with the next-page
    token "T1". *)
Definition fresh_table : CustomTable := constructor (sample_props (resolves "T1")).

(** The same table after it has loaded page 0 and then page 1, now with a
    data source that has no further page. *)
Definition table_on_page_1 : CustomTable :=
  with_props (sample_props (resolves ""))
    (snd (_pageChanged 1 (snd (componentDidMount fresh_table)))).

(** The current page lies between 0 and the bound, and the state refers to
    an array whose first entry is the empty string. *)
Definition cursor_ok (this : CustomTable) : Prop :=
  0 ≤ currentPage (state this) ≤ maxPageIndex (state this) ∧
  ∃ a, heap this !! tokenList (state this) = Some a ∧ a !! 0%nat = Some "".

(** A data source during whose fetch the owner unmounts the table, and which
    then resolves with [nextPageToken]. *)
Definition unmounts_then_resolves (nextPageToken : string) : Request → Outcome :=
  fun _ => {| unmounts := true; settles := Resolved nextPageToken |}.

(** A table drawn with radio buttons. *)
Definition radio_table : CustomTable :=
  constructor
    {| Props.disablePaging := None;
       Props.disableSelection := None;
       Props.reload := resolves "";
       Props.rows := Props.rows (sample_props (resolves ""));
       Props.selectedIds := Some ["id2"];
       Props.updateSelection := true;
       Props.useRadioButtons := Some true |}.

(** ** The owner of the table and its user *)

(** The select-all check box of the header, as [render()] draws it: there is
    none when selection is disabled or radio buttons are used. *)
Record HeaderCheckbox := {
  indeterminate : bool;
  checked : bool;
}.

Definition headerCheckbox (this : CustomTable) : option HeaderCheckbox :=
  let numSelected := Js.length (default [] (Props.selectedIds (props this))) in
  let rows := Js.length (Props.rows (props this)) in
  if negb (Js.is_true (Props.disableSelection (props this)))
     && negb (Js.is_true (Props.useRadioButtons (props this)))
  then Some {| indeterminate := negb (numSelected =? 0) && (numSelected <? rows);
               checked := negb (numSelected =? 0) && (numSelected =? rows) |}
  else None.

(** The props with another selection. *)
Definition select (selectedIds : list string) (p : Props.t) : Props.t :=
  {| Props.disablePaging := Props.disablePaging p;
     Props.disableSelection := Props.disableSelection p;
     Props.reload := Props.reload p;
     Props.rows := Props.rows p;
     Props.selectedIds := Some selectedIds;
     Props.updateSelection := Props.updateSelection p;
     Props.useRadioButtons := Props.useRadioButtons p |}.

Definition selection_of (c : Call) : option (list string) :=
  match c with
  | props_updateSelection selectedIds => Some selectedIds
  | _ => None
  end.

(** The table is a controlled component: an owner that keeps the selection
    renders the table again with the selection [updateSelection] was handed.
    [owner_adopts before after] does so for the calls made between the two
    instances. *)
Definition owner_adopts (before after : CustomTable) : CustomTable :=
  match last (omap selection_of (drop (length (trace before)) (trace after))) with
  | Some selectedIds => with_props (select selectedIds (props after)) after
  | None => after
  end.

(** A click on the row [id], and on the check box of the header, with such
    an owner. *)
Definition click (id : string) (this : CustomTable) : CustomTable :=
  owner_adopts this (snd (handleClick id this)).

Definition click_all (checked : bool) (this : CustomTable) : CustomTable :=
  owner_adopts this (snd (handleSelectAllClick checked this)).

(** The selection the table is drawn with. *)
Definition selection (this : CustomTable) : list string :=
  default [] (Props.selectedIds (props this)).

(** What the user can do with the footer of a drawn table (each control
    makes one call), and what the owner can do meanwhile. *)
Inductive Gesture :=
| Back
| Forward
| RowsPerPage (pageSize : Z)
| Refresh
| NewProps (p : Props.t).

(** [reload()] without an argument. *)
Definition no_request : LoadRequest.t :=
  {| LoadRequest.pageSize := None; LoadRequest.pageToken := None |}.

Definition perform (this : CustomTable) (g : Gesture) : CustomTable :=
  match g with
  | Back => snd (_pageChanged (-1) this)
  | Forward => snd (_pageChanged 1 this)
  | RowsPerPage pageSize => snd (_requestRowsPerPage pageSize this)
  | Refresh => snd (reload no_request this)
  | NewProps p => with_props p this
  end.

(** A data source all of whose promises resolve, with an owner that keeps
    the table mounted meanwhile. *)
Definition responsive (p : Props.t) : Prop :=
  ∀ request, unmounts (Props.reload p request) = false ∧
             ∃ result, settles (Props.reload p request) = Resolved result.

(** Use of the table in turn.  The component does not keep its operations
    apart: [componentDidMount] returns before its fetch has settled and
    [render] leaves the paging controls enabled while the table is busy, so
    a second operation can start while the first is suspended.  [used_in_turn]
    describes the tables reached when the callers do keep them apart: the
    first fetch has settled before anything else happens, and every gesture
    is performed only after the one before has run to its end, with a
    responsive data source throughout.  It is a condition on the use, not a
    description of every state the program can reach. *)
Inductive used_in_turn : CustomTable → Prop :=
| in_turn_mounted (p : Props.t) :
    responsive p → used_in_turn (snd (componentDidMount (constructor p)))
| in_turn_gesture (this : CustomTable) (g : Gesture) :
    used_in_turn this →
    (∀ p, g = NewProps p → responsive p) →
    used_in_turn (perform this g).

(** The page tokens handed to [props.reload]. *)
Definition requested_tokens (t : list Call) : list (option string) :=
  omap (λ c, match c with
             | props_reload request => Some (pageToken_ request)
             | _ => None
             end) t.

(** ** The list page of artifacts

    [frontend/src/pages/ArtifactList.tsx]: the page that draws a
    [CustomTable] and is its data source.  The base class [Page], the API
    client and the helpers of [lib/Utils] are not part of these sources: the
    methods of [Page] the page calls are parameters ([Base]), the two API
    calls are given by how their promises settle ([Api]), and of a row only
    the [id] is modelled, the cells being a parameter. *)
Module ArtifactList.

Import Stdlib.Strings.Ascii.

(** The fields of [MlMetadataArtifactType] the page reads. *)
Module ArtifactType.
Record t := {
  id : option string;
  name : option string;
}.
End ArtifactType.

(** The fields of [MlMetadataArtifact] the page reads; of [properties] only
    whether they are there. *)
Module Artifact.
Record t := {
  id : option string;
  type_id : option string;
  uri : option string;
  properties : option (list (string * string));
}.
End Artifact.

(** [Map<string, MlMetadataArtifactType>]; the keys are [at.id!], which can
    be undefined. *)
Abbreviation TypeMap := (gmap (option string) ArtifactType.t).

(** [new Map(pairs)]: a later pair replaces an earlier one with its key. *)
Definition Map_new (pairs : list (option string * ArtifactType.t)) : TypeMap :=
  foldl (λ m kv, <[kv.1 := kv.2]> m) ∅ pairs.

Inductive PageCall :=
| api_listArtifactTypes
| api_listArtifacts2.

(** The page instance: its state, its field [artifactTypes], and the API
    calls it has made. *)
Record Page := {
  artifacts : list Artifact.t;
  artifactTypes : option TypeMap;
  calls : list PageCall;
}.

Definition P (A : Type) : Type := Page → Completion A * Page.

Definition ret {A} (a : A) : P A := fun this => (Return a, this).

Definition throw {A} (reason : Error) : P A := fun this => (Throw reason, this).

Definition bind {A B} (m : P A) (k : A → P B) : P B := fun this =>
  match m this with
  | (Return a, this') => k a this'
  | (Throw e, this') => (Throw e, this')
  end.

(** [try { body } catch (err) { handler }] *)
Definition try_catch {A} (body : P A) (handler : Error → P A) : P A := fun this =>
  match body this with
  | (Return a, this') => (Return a, this')
  | (Throw e, this') => handler e this'
  end.

(** The methods of the base class [Page] that the page calls. *)
Record Base := {
  setStateSafe : list Artifact.t → P unit;
  clearBanner : P unit;
  showPageError : string → Error → P unit;
}.

(** How the promises of the two API calls settle.  The response of
    [listArtifactTypes] is given by its field [artifact_types]; the response
    of [listArtifacts2] can be missing, and so can its field [artifacts]. *)
Record Api := {
  listArtifactTypes : Completion (option (list ArtifactType.t));
  listArtifacts2 : Completion (option (option (list Artifact.t)));
}.

(** [await] of an API call. *)
Definition await {A} (c : PageCall) (settled : Completion A) : P A := fun this =>
  (settled,
   {| artifacts := artifacts this; artifactTypes := artifactTypes this;
      calls := calls this ++ [c] |}).

Definition set_artifactTypes (m : TypeMap) : P unit := fun this =>
  (Return tt,
   {| artifacts := artifacts this; artifactTypes := Some m; calls := calls this |}).

(** What reading a property of [undefined] throws. *)
Definition TypeError : Error := "TypeError".

(** [getArtifactTypes()] *)
Definition getArtifactTypes (base : Base) (api : Api) : P TypeMap :=
  try_catch
    (bind (await api_listArtifactTypes (listArtifactTypes api)) (fun artifact_types =>
     match artifact_types with
     | Some types => ret (Map_new (map (λ at_, (ArtifactType.id at_, at_)) types))
     | None => throw TypeError
     end))
    (fun err =>
       bind (showPageError base
               "Unable to retrieve Artifact Types, some features may not work." err)
            (fun _ => ret ∅)).

(** [reload()] *)
Definition reload (base : Base) (api : Api) : P string :=
  bind (fun this => (Return (artifactTypes this), this)) (fun types =>
  bind
    (* TODO: Consider making an Api method for returning and caching types *)
    (match types with
     | Some m =>
         if (size m =? 0)%nat
         then bind (getArtifactTypes base api) set_artifactTypes
         else ret tt
     | None => bind (getArtifactTypes base api) set_artifactTypes
     end) (fun _ =>
  bind
    (try_catch
       (bind (await api_listArtifacts2 (listArtifacts2 api)) (fun response =>
        bind (setStateSafe base (default [] (mjoin response))) (fun _ =>
        clearBanner base)))
       (fun err => showPageError base "Unable to retrieve Artifacts." err)) (fun _ =>
  ret ""))).

(** A part of a template literal: [undefined] is written out. *)
Definition interpolate (s : option string) : string := default "undefined" s.

(** The [type] of a row in [render()]. *)
Definition row_type (this : Page) (a : Artifact.t) : option string :=
  match artifactTypes this with
  | Some m =>
      match m !! Artifact.type_id a with
      | Some at_ => ArtifactType.name at_
      | None => Artifact.type_id a
      end
  | None => Artifact.type_id a
  end.

(** The [id] of a row in [render()]: type and id joined with a colon. *)
Definition row_id (this : Page) (a : Artifact.t) : string :=
  interpolate (row_type this a) +:+ ":" +:+ interpolate (Artifact.id a).

(** The rows of [render()], with [cells] for the cells of a row. *)
Definition rows (cells : Artifact.t → list string) (this : Page) : list Row.t :=
  map (λ a, {| Row.error := None; Row.id := row_id this a; Row.otherFields := cells a |})
      (filter (λ a, is_Some (Artifact.properties a)) (artifacts this)).

(** [s.split(sep)] for a separator of one character. *)
Fixpoint split (sep : ascii) (s : string) : list string :=
  match s with
  | EmptyString => [EmptyString]
  | String c s' =>
      if Ascii.eqb c sep then EmptyString :: split sep s'
      else match split sep s' with
           | piece :: pieces => String c piece :: pieces
           | [] => [String c EmptyString]
           end
  end.

(** Whether the character occurs in the string. *)
Fixpoint contains (c : ascii) (s : string) : bool :=
  match s with
  | EmptyString => false
  | String c' s' => Ascii.eqb c' c || contains c s'
  end.

Definition colon : ascii := ":"%char.

(** [const [artifactType, artifactId] = props.id.split(':')] in
    [nameCustomRenderer]. *)
Definition renderer_parts (id : string) : option string * option string :=
  let pieces := split colon id in
  (pieces !! 0%nat, pieces !! 1%nat).

(** The props [render()] gives its table: no paging, no selection, and the
    page's [reload] as the data source.  The owner keeps the table mounted
    while the promise is pending. *)
Definition table_props (base : Base) (api : Api) (cells : Artifact.t → list string)
    (this : Page) : Props.t :=
  {| Props.disablePaging := Some true;
     Props.disableSelection := Some true;
     Props.reload := fun _ =>
       {| unmounts := false;
          settles := match fst (reload base api this) with
                     | Return result => Resolved result
                     | Throw reason => Rejected reason
                     end |};
     Props.rows := rows cells this;
     Props.selectedIds := None;
     Props.updateSelection := false;
     Props.useRadioButtons := None |}.

(** A base class that records nothing and never throws, and a page that has
    not loaded anything yet. *)
Definition quiet : Base :=
  {| setStateSafe := fun artifacts this =>
       (Return tt,
        {| artifacts := artifacts; artifactTypes := artifactTypes this;
           calls := calls this |});
     clearBanner := ret tt;
     showPageError := fun _ _ => ret tt |}.

Definition new_page : Page :=
  {| artifacts := []; artifactTypes := None; calls := [] |}.

(** An artifact type and an artifact, an API that answers with them and one
    whose calls fail, and the page after one [reload] from the first. *)
Definition metrics : ArtifactType.t :=
  {| ArtifactType.id := Some "1";
     ArtifactType.name := Some "kubeflow.org/alpha/metrics" |}.

Definition mnist : Artifact.t :=
  {| Artifact.id := Some "1";
     Artifact.type_id := Some "1";
     Artifact.uri := Some "gs://my-bucket/mnist";
     Artifact.properties := Some [("name", "model"); ("version", "v1")] |}.

Definition answering : Api :=
  {| listArtifactTypes := Return (Some [metrics]);
     listArtifacts2 := Return (Some (Some [mnist])) |}.

Definition failing : Api :=
  {| listArtifactTypes := Throw "List artifact types error";
     listArtifacts2 := Throw "List artifacts error" |}.

Definition loaded_page : Page := snd (reload quiet answering new_page).

End ArtifactList.

(** ** What one call of [reload] does *)

Lemma state_eta (s : CustomTableState) :
  {| currentPage := currentPage s; isBusy := isBusy s;
     maxPageIndex := maxPageIndex s; pageSize := pageSize s;
     tokenList := tokenList s |} = s.
Proof. by destruct s. Qed.

Lemma reload_run (loadRequest : LoadRequest.t) (this : CustomTable) :
  let request := reload_request loadRequest this in
  reload loadRequest this =
    (completion_of (settles (Props.reload (props this) request)),
     reloaded request this).
Proof.
  destruct this as [p s m h t].
  unfold reload, reloaded, reload_request, bind, try_finally, this_state, read,
    await_props_reload, componentWillUnmount, setStateSafe, setState, ret,
    tokens, with_state, with_trace, with_isMounted, merge; simpl.
  destruct m; simpl;
    destruct (Props.reload p _) as [u []]; simpl;
    destruct u; simpl; rewrite ?state_eta; reflexivity.
Qed.

Lemma page_request_eq (offset : Z) (this : CustomTable) :
  reload_request
    {| LoadRequest.pageSize := None;
       LoadRequest.pageToken :=
         Some (Js.index (tokens this) (newCurrentPage (state this) offset)) |}
    this = page_request offset this.
Proof. reflexivity. Qed.

Lemma size_request_eq (n : Z) (this : CustomTable) :
  reload_request
    {| LoadRequest.pageSize := Some n;
       LoadRequest.pageToken := Some (Some "") |} this = size_request n.
Proof. reflexivity. Qed.

Lemma reloaded_tokenList (request : Request) (this : CustomTable) :
  tokenList (state (reloaded request this)) = tokenList (state this).
Proof. unfold reloaded; simpl. by destruct (_isMounted this). Qed.

Lemma reloaded_currentPage (request : Request) (this : CustomTable) :
  currentPage (state (reloaded request this)) = currentPage (state this).
Proof. unfold reloaded; simpl. by destruct (_isMounted this). Qed.

Lemma reloaded_maxPageIndex (request : Request) (this : CustomTable) :
  maxPageIndex (state (reloaded request this)) = maxPageIndex (state this).
Proof. unfold reloaded; simpl. by destruct (_isMounted this). Qed.

Lemma reloaded_tokens (request : Request) (this : CustomTable) :
  tokens (reloaded request this) = tokens this.
Proof. unfold tokens. by rewrite reloaded_tokenList. Qed.

(** ** What one call of [_pageChanged] does *)

Lemma pageChanged_run (offset : Z) (this : CustomTable) :
  _pageChanged offset this =
    (match settles (Props.reload (props this) (page_request offset this)) with
     | Resolved _ => Return tt
     | Rejected reason => Throw reason
     end,
     page_changed offset this).
Proof.
  unfold _pageChanged, page_changed, bind at 1, this_state.
  unfold bind at 1, read. fold (tokens this).
  unfold bind at 1. rewrite reload_run, page_request_eq.
  destruct (settles _) as [r|e]; simpl; [|done].
  unfold bind at 1.
  destruct (Js.truthy r); simpl.
  - unfold bind, this_state, read, ret, array_push, setStateSafe, setState,
      commit_page, merge.
    fold (tokens (reloaded (page_request offset this) this)).
    rewrite reloaded_tokens, reloaded_tokenList. fold (tokens this).
    destruct (_ =? _); simpl; by destruct (_isMounted this && _).
  - unfold ret, setStateSafe, setState, commit_page, merge; simpl.
    by destruct (_isMounted this && _).
Qed.

(** ** What one call of [_requestRowsPerPage] does *)

Lemma deref_insert (h : gmap loc (list string)) (l : loc) (a : list string) :
  deref (<[l := a]> h) l = a.
Proof. unfold deref. by rewrite lookup_insert_eq. Qed.

Lemma deref_insert_ne (h : gmap loc (list string)) (l l' : loc) (a : list string) :
  l ≠ l' → deref (<[l := a]> h) l' = deref h l'.
Proof. intros. unfold deref. by rewrite lookup_insert_ne. Qed.

Lemma resetToFirstPage_run (newPageToken : string) (this : CustomTable) :
  _resetToFirstPage (Some newPageToken) this =
    (Return tt, reset_to_first_page newPageToken this).
Proof.
  unfold _resetToFirstPage, reset_to_first_page, bind, array_new, array_push,
    ret, setStateSafe, setState, merge.
  destruct (Js.truthy newPageToken); simpl;
    rewrite ?deref_insert, ?insert_insert_eq; by destruct (_isMounted this).
Qed.

Lemma requestRowsPerPage_run (n : Z) (this : CustomTable) :
  _requestRowsPerPage n this =
    match settles (Props.reload (props this) (size_request n)) with
    | Resolved newPageToken =>
        (Return tt, reset_to_first_page newPageToken (reloaded (size_request n) this))
    | Rejected reason => (Throw reason, reloaded (size_request n) this)
    end.
Proof.
  unfold _requestRowsPerPage, bind. rewrite reload_run, size_request_eq.
  destruct (settles _); simpl; [apply resetToFirstPage_run | done].
Qed.

Lemma truthy_true (s : string) : Js.truthy s = true ↔ s ≠ "".
Proof.
  unfold Js.truthy. rewrite negb_true_iff. apply String.eqb_neq.
Qed.

Lemma truthy_false (s : string) : Js.truthy s = false ↔ s = "".
Proof.
  unfold Js.truthy. rewrite negb_false_iff. apply String.eqb_eq.
Qed.

Lemma commit_page_tokens (target m : Z) (this : CustomTable) :
  tokens (commit_page target m this) = tokens this.
Proof. unfold commit_page. by destruct (_isMounted this). Qed.

Lemma commit_page_tokenList (target m : Z) (this : CustomTable) :
  tokenList (state (commit_page target m this)) = tokenList (state this).
Proof. unfold commit_page. by destruct (_isMounted this). Qed.

Lemma commit_page_heap (target m : Z) (this : CustomTable) :
  heap (commit_page target m this) = heap this.
Proof. unfold commit_page. by destruct (_isMounted this). Qed.

Lemma commit_page_trace (target m : Z) (this : CustomTable) :
  trace (commit_page target m this) = trace this.
Proof. unfold commit_page. by destruct (_isMounted this). Qed.

Lemma tokens_with_heap (h : gmap loc (list string)) (this : CustomTable) :
  tokens (with_heap h this) = deref h (tokenList (state this)).
Proof. reflexivity. Qed.

(** ** Properties of navigation *)




(** C2.  When the promise of [props.reload] rejects, [_pageChanged] (and
    [reload] itself) throws the same reason to its caller; the current page,
    the bound, the token list and every array are as before the call; and,
    the table still being mounted, [isBusy] is false again. *)
Theorem navigation_failure (this : CustomTable) (offset : Z) (reason : Error) :
  settles (Props.reload (props this) (page_request offset this)) = Rejected reason →
  let this' := snd (_pageChanged offset this) in
  fst (_pageChanged offset this) = Throw reason ∧
  fst (reload {| LoadRequest.pageSize := None;
                 LoadRequest.pageToken :=
                   Some (Js.index (tokens this) (newCurrentPage (state this) offset)) |}
         this) = Throw reason ∧
  currentPage (state this') = currentPage (state this) ∧
  maxPageIndex (state this') = maxPageIndex (state this) ∧
  tokenList (state this') = tokenList (state this) ∧
  tokens this' = tokens this ∧
  heap this' = heap this ∧
  (_isMounted this' = true → isBusy (state this') = false).
Proof.
  intros Hrej this'. subst this'.
  rewrite reload_run, page_request_eq, pageChanged_run; cbn [fst snd].
  unfold page_changed. rewrite Hrej; cbn [completion_of].
  rewrite reloaded_currentPage, reloaded_maxPageIndex, reloaded_tokenList,
    reloaded_tokens.
  repeat split.
  unfold reloaded; simpl.
  destruct (_isMounted this), (unmounts _); simpl; congruence.
Qed.

Lemma navigation_failure_witness :
  fst (_pageChanged 1 (with_props (sample_props (rejects "boom")) table_on_page_1))
    = Throw "boom" ∧
  isBusy (state (snd (_pageChanged 1
    (with_props (sample_props (rejects "boom")) table_on_page_1)))) = false.
Proof.
  destruct (navigation_failure
              (with_props (sample_props (rejects "boom")) table_on_page_1) 1 "boom")
    as (Hthrow & _ & _ & _ & _ & _ & _ & Hbusy); [reflexivity|].
  split; [exact Hthrow | apply Hbusy; reflexivity].
Defined.

Lemma newCurrentPage_range (s : CustomTableState) (offset : Z) :
  0 ≤ maxPageIndex s →
  0 ≤ newCurrentPage s offset ≤ maxPageIndex s.
Proof. unfold newCurrentPage. lia. Qed.

Lemma page_changed_currentPage (offset : Z) (this : CustomTable) (r : string) :
  settles (Props.reload (props this) (page_request offset this)) = Resolved r →
  _isMounted (page_changed offset this) = true →
  currentPage (state (page_changed offset this)) = newCurrentPage (state this) offset.
Proof.
  intros Hres. unfold page_changed. rewrite Hres.
  destruct (Js.truthy r); [destruct (_ =? _)|];
    unfold commit_page, reloaded; simpl;
    destruct (_isMounted this), (unmounts _); simpl; congruence.
Qed.



Lemma page_changed_trace (offset : Z) (this : CustomTable) :
  trace (page_changed offset this)
    = trace this ++ [props_reload (page_request offset this)].
Proof.
  unfold page_changed.
  destruct (settles _) as [r|e]; [|done].
  destruct (Js.truthy r); [destruct (_ =? _)|];
    by rewrite commit_page_trace.
Qed.

(** C4.  For every offset, [_pageChanged] goes to [currentPage + offset]
    brought into the range from 0 to [maxPageIndex]: 0 when the sum is
    negative, [maxPageIndex] when the sum is beyond it, the sum otherwise.
    It calls [props.reload] once, with the page size of the state and with
    the entry of the token list at that page as the page token; the page is
    the one it commits when the promise resolves and the table is mounted.
    With offset -1 on page 1 the page token is the empty string, the first
    entry of the list. *)
Theorem pageChanged_target (this : CustomTable) (offset : Z) :
  0 ≤ maxPageIndex (state this) →
  let sum := currentPage (state this) + offset in
  let target := newCurrentPage (state this) offset in
  let this' := snd (_pageChanged offset this) in
  0 ≤ target ≤ maxPageIndex (state this) ∧
  (sum < 0 → target = 0) ∧
  (0 ≤ sum ≤ maxPageIndex (state this) → target = sum) ∧
  (maxPageIndex (state this) < sum → target = maxPageIndex (state this)) ∧
  trace this' =
    trace this ++ [props_reload {| pageSize_ := pageSize (state this);
                                   pageToken_ := Js.index (tokens this) target |}] ∧
  (∀ r, settles (Props.reload (props this) (page_request offset this)) = Resolved r →
        _isMounted this' = true → currentPage (state this') = target) ∧
  (currentPage (state this) = 1 → offset = -1 →
   Js.index (tokens this) 0 = Some "" →
   trace this' =
     trace this ++ [props_reload {| pageSize_ := pageSize (state this);
                                    pageToken_ := Some "" |}]).
Proof.
  intros Hmax sum target this'.
  assert (trace this' = trace this ++ [props_reload (page_request offset this)])
    as Htrace.
  { subst this'. rewrite pageChanged_run. apply page_changed_trace. }
  split; [by apply newCurrentPage_range|].
  repeat split.
  - unfold target, newCurrentPage. fold sum. lia.
  - unfold target, newCurrentPage. fold sum. lia.
  - unfold target, newCurrentPage. fold sum. lia.
  - exact Htrace.
  - intros r Hres. subst this'. rewrite pageChanged_run; cbn [snd].
    by apply (page_changed_currentPage offset this r).
  - intros Hcur Hoff Hfirst. rewrite Htrace. unfold page_request.
    replace (newCurrentPage (state this) offset) with 0; [by rewrite Hfirst|].
    unfold newCurrentPage. lia.
Qed.

Lemma pageChanged_target_witness :
  trace (snd (_pageChanged (-1) table_on_page_1)) =
    trace table_on_page_1
      ++ [props_reload {| pageSize_ := 10; pageToken_ := Some "" |}].
Proof.
  destruct (pageChanged_target table_on_page_1 (-1))
    as (_ & _ & _ & _ & _ & _ & Hback); [vm_compute; discriminate|].
  apply Hback; reflexivity.
Defined.

(** ** Properties of the change of page size *)

(** C5.  When [_requestRowsPerPage] completes with a resolved promise on a
    mounted table, it has asked for the first page at the new size, the
    current page is 0 and the page size is the new one; with a non-empty
    next-page token the token list is the empty string followed by that
    token and [maxPageIndex] is [MAX_SAFE_INTEGER]; with an empty one the
    token list is the empty string alone and [maxPageIndex] is 0.  The
    tokens recorded before are gone from the list in both cases. *)
Theorem requestRowsPerPage_success
    (this : CustomTable) (newSize : Z) (nextPageToken : string) :
  _isMounted this = true →
  Props.reload (props this) {| pageSize_ := newSize; pageToken_ := Some "" |}
    = {| unmounts := false; settles := Resolved nextPageToken |} →
  let this' := snd (_requestRowsPerPage newSize this) in
  fst (_requestRowsPerPage newSize this) = Return tt ∧
  trace this' =
    trace this ++ [props_reload {| pageSize_ := newSize; pageToken_ := Some "" |}] ∧
  currentPage (state this') = 0 ∧
  pageSize (state this') = newSize ∧
  (nextPageToken ≠ "" →
     tokens this' = [""; nextPageToken] ∧
     maxPageIndex (state this') = MAX_SAFE_INTEGER) ∧
  (nextPageToken = "" →
     tokens this' = [""] ∧ maxPageIndex (state this') = 0).
Proof.
  intros Hmounted Hfetch this'. subst this'.
  rewrite requestRowsPerPage_run. unfold size_request.
  rewrite Hfetch; cbn [settles fst snd].
  unfold reset_to_first_page, reloaded. rewrite Hmounted, Hfetch.
  cbn -[fresh dom].
  do 4 (split; [reflexivity|]).
  split.
  - intros Hne. apply truthy_true in Hne. rewrite Hne.
    split; [|reflexivity].
    unfold tokens; cbn -[fresh dom]. apply deref_insert.
  - intros ->. split; [|reflexivity].
    unfold tokens; cbn -[fresh dom]. apply deref_insert.
Qed.

Lemma requestRowsPerPage_success_witness :
  tokens (snd (_requestRowsPerPage 20 (snd (componentDidMount fresh_table))))
    = [""; "T1"] ∧
  pageSize (state (snd (_requestRowsPerPage 20 (snd (componentDidMount fresh_table)))))
    = 20.
Proof.
  destruct (requestRowsPerPage_success (snd (componentDidMount fresh_table)) 20 "T1")
    as (_ & _ & _ & Hsize & Hmore & _); [reflexivity | reflexivity |].
  split; [apply Hmore; discriminate | exact Hsize].
Defined.

(** C9.  [reload] writes the requested page size into the state before it
    awaits the promise and its [finally] block resets only [isBusy].  So when
    the promise rejects during [_requestRowsPerPage] on a table that was
    mounted at the call, the reason is thrown, [pageSize] is the requested
    size, and the current page, the bound, the token list and every array
    are as before the call. *)
Theorem requestRowsPerPage_failure
    (this : CustomTable) (newSize : Z) (reason : Error) :
  _isMounted this = true →
  settles (Props.reload (props this) {| pageSize_ := newSize; pageToken_ := Some "" |})
    = Rejected reason →
  let this' := snd (_requestRowsPerPage newSize this) in
  fst (_requestRowsPerPage newSize this) = Throw reason ∧
  pageSize (state this') = newSize ∧
  currentPage (state this') = currentPage (state this) ∧
  maxPageIndex (state this') = maxPageIndex (state this) ∧
  tokenList (state this') = tokenList (state this) ∧
  tokens this' = tokens this ∧
  heap this' = heap this.
Proof.
  intros Hmounted Hrej this'. subst this'.
  rewrite requestRowsPerPage_run. unfold size_request. rewrite Hrej; cbn [fst snd].
  rewrite reloaded_currentPage, reloaded_maxPageIndex, reloaded_tokenList,
    reloaded_tokens.
  repeat split.
  unfold reloaded. rewrite Hmounted. reflexivity.
Qed.

Lemma requestRowsPerPage_failure_witness :
  pageSize (state table_on_page_1) = 10 ∧
  pageSize (state (snd (_requestRowsPerPage 50
    (with_props (sample_props (rejects "boom")) table_on_page_1)))) = 50 ∧
  currentPage (state (snd (_requestRowsPerPage 50
    (with_props (sample_props (rejects "boom")) table_on_page_1)))) = 1.
Proof.
  split; [reflexivity|].
  destruct (requestRowsPerPage_failure
              (with_props (sample_props (rejects "boom")) table_on_page_1) 50 "boom")
    as (_ & Hsize & Hcur & _); [reflexivity | reflexivity |].
  split; [exact Hsize | exact Hcur].
Defined.

(** ** The invariant of the cursor *)

Lemma constructor_ok (p : Props.t) : cursor_ok (constructor p).
Proof.
  split; [done|]. exists [""]. split; [|done].
  unfold constructor; cbn -[fresh dom]. apply lookup_singleton_eq.
Qed.

Lemma reloaded_ok (request : Request) (this : CustomTable) :
  cursor_ok this → cursor_ok (reloaded request this).
Proof.
  intros [Hrange Htokens]. split.
  - by rewrite reloaded_currentPage, reloaded_maxPageIndex.
  - by rewrite reloaded_tokenList.
Qed.

Lemma commit_page_ok (target m : Z) (this : CustomTable) :
  0 ≤ target ≤ m → cursor_ok this → cursor_ok (commit_page target m this).
Proof.
  intros Hrange Hok. unfold commit_page.
  destruct (_isMounted this); [|done].
  destruct Hok as [_ Htokens]. by split.
Qed.

Lemma pushed_ok (l : loc) (a : list string) (x : string) (this : CustomTable) :
  l = tokenList (state this) → a = tokens this →
  cursor_ok this →
  cursor_ok (with_heap (<[l := a ++ [x]]> (heap this)) this).
Proof.
  intros -> -> [Hrange (b & Ha & Hfirst)]. split; [done|].
  exists (b ++ [x]). cbn [heap state with_heap]. split.
  - unfold tokens, deref. rewrite Ha. apply lookup_insert_eq.
  - rewrite lookup_app_l; [done|]. by apply lookup_lt_Some in Hfirst.
Qed.

Lemma page_changed_ok (offset : Z) (this : CustomTable) :
  cursor_ok this → cursor_ok (page_changed offset this).
Proof.
  intros Hok. unfold page_changed.
  pose proof (reloaded_ok (page_request offset this) this Hok) as Hok1.
  assert (0 ≤ newCurrentPage (state this) offset ≤ maxPageIndex (state this))
    as Htarget by (apply newCurrentPage_range; destruct Hok; lia).
  destruct (settles _) as [r|e]; [|done].
  destruct (Js.truthy r).
  - apply commit_page_ok; [done|].
    destruct (_ =? _); [|done].
    change (heap this) with (heap (reloaded (page_request offset this) this)).
    apply pushed_ok; [| |done].
    + symmetry. apply reloaded_tokenList.
    + symmetry. apply reloaded_tokens.
  - apply commit_page_ok; [lia|done].
Qed.

Lemma reset_to_first_page_ok (newPageToken : string) (this : CustomTable) :
  cursor_ok this → cursor_ok (reset_to_first_page newPageToken this).
Proof.
  intros [Hrange (a & Ha & Hfirst)]. unfold reset_to_first_page.
  destruct (_isMounted this).
  - split.
    + cbn -[fresh dom]. destruct (Js.truthy newPageToken); done.
    + eexists. cbn -[fresh dom]. split; [apply lookup_insert_eq|].
      by destruct (Js.truthy newPageToken).
  - split; [done|]. exists a. cbn -[fresh dom]. split; [|done].
    rewrite lookup_insert_ne; [done|].
    intros Heq. apply (is_fresh (dom (heap this))).
    rewrite Heq. apply elem_of_dom. by exists a.
Qed.

Lemma step_ok (this : CustomTable) (ev : Event) :
  cursor_ok this → cursor_ok (step this ev).
Proof.
  intros Hok. destruct ev as [p| |offset|n|lr|checked|id|]; cbn [step].
  - done.
  - unfold componentDidMount. rewrite pageChanged_run. by apply page_changed_ok.
  - rewrite pageChanged_run. by apply page_changed_ok.
  - rewrite requestRowsPerPage_run.
    destruct (settles _); cbn [snd].
    + by apply reset_to_first_page_ok, reloaded_ok.
    + by apply reloaded_ok.
  - rewrite reload_run. by apply reloaded_ok.
  - unfold handleSelectAllClick, bind, this_props, ret, call.
    destruct (Js.is_true _); [done|]. by destruct (Props.updateSelection _).
  - unfold handleClick, bind, this_props, ret, call.
    destruct (Js.is_true _); [done|]. by destruct (Props.updateSelection _).
  - done.
Qed.

Lemma run_ok (evs : list Event) (this : CustomTable) :
  cursor_ok this → cursor_ok (run this evs).
Proof.
  revert this. induction evs as [|ev evs IH]; intros this Hok; [done|].
  apply IH, step_ok, Hok.
Qed.

(** C6.  From the state the constructor builds (page 0, bound
    [MAX_SAFE_INTEGER], token list holding the empty string), after any
    sequence of completed events (navigation by any offset, change of page
    size, reload, clicks, new props, unmount, with promises that resolve or
    reject), the current page lies between 0 and [maxPageIndex] and the first
    entry of the token list is the empty string. *)
Theorem cursor_invariant (p : Props.t) (evs : list Event) :
  let this := run (constructor p) evs in
  currentPage (state (constructor p)) = 0 ∧
  maxPageIndex (state (constructor p)) = MAX_SAFE_INTEGER ∧
  tokens (constructor p) = [""] ∧
  0 ≤ currentPage (state this) ≤ maxPageIndex (state this) ∧
  Js.index (tokens this) 0 = Some "".
Proof.
  intros this. subst this.
  destruct (run_ok evs (constructor p) (constructor_ok p))
    as [Hrange (a & Ha & Hfirst)].
  do 2 (split; [reflexivity|]).
  split.
  { unfold tokens, constructor; cbn -[fresh dom]. unfold deref.
    by rewrite lookup_singleton_eq. }
  split; [done|].
  unfold tokens, deref. by rewrite Ha.
Qed.

(** ** Teardown while a fetch is pending *)

(** Every write that goes through [setStateSafe] is dropped after teardown:
    when [_pageChanged] resumes on an unmounted table, the state record it
    leaves is the one it resumed with. *)
Lemma pageChanged_after_unmount_state (this : CustomTable) (offset : Z) :
  _isMounted (reloaded (page_request offset this) this) = false →
  state (snd (_pageChanged offset this))
    = state (reloaded (page_request offset this) this).
Proof.
  intros Hgone. rewrite pageChanged_run; cbn [snd]. unfold page_changed.
  destruct (settles _) as [r|e]; [|done].
  destruct (Js.truthy r); [destruct (_ =? _)|];
    unfold commit_page; cbn [_isMounted with_heap]; by rewrite Hgone.
Qed.

(** The same holds for [_requestRowsPerPage], and there the token list is
    untouched as well: the new list is built apart and handed to
    [setStateSafe]. *)
Lemma requestRowsPerPage_after_unmount (this : CustomTable) (n : Z) :
  (∃ a, heap this !! tokenList (state this) = Some a) →
  _isMounted (reloaded (size_request n) this) = false →
  state (snd (_requestRowsPerPage n this)) = state (reloaded (size_request n) this) ∧
  tokens (snd (_requestRowsPerPage n this)) = tokens this.
Proof.
  intros [a Ha] Hgone. rewrite requestRowsPerPage_run.
  destruct (settles _) as [r|e]; cbn [snd]; [|by rewrite reloaded_tokens].
  unfold reset_to_first_page. rewrite Hgone. split; [done|].
  rewrite tokens_with_heap, reloaded_tokenList.
  change (heap (reloaded (size_request n) this)) with (heap this).
  rewrite deref_insert_ne; [done|].
  intros Heq. apply (is_fresh (dom (heap this))).
  rewrite Heq. apply elem_of_dom. by exists a.
Qed.

(** C7.  The table is unmounted while the fetch of its first page is
    pending, and the fetch then resolves with the token "T1".  When
    [_pageChanged] resumes, the table is unmounted and its token list holds
    the empty string only; when it has finished, the state record is the
    same, but the token list holds "T1" as well: the [push] of
    [_pageChanged] writes the array of the state without asking
    [_isMounted]. *)
Theorem pageChanged_pushes_after_unmount :
  let this := constructor (sample_props (unmounts_then_resolves "T1")) in
  let resumed :=
    snd (reload {| LoadRequest.pageSize := None;
                   LoadRequest.pageToken := Some (Js.index (tokens this) 0) |} this) in
  let this' := snd (componentDidMount this) in
  _isMounted resumed = false ∧
  tokens resumed = [""] ∧
  state this' = state resumed ∧
  tokens this' = [""; "T1"].
Proof. vm_compute. repeat split. Qed.

(** ** Properties of the selection *)

Lemma indexOf_from_absent (a : list string) (x : string) (k : Z) :
  x ∉ a → Js.indexOf_from a x k = -1.
Proof.
  revert k. induction a as [|y a IH]; intros k Hnotin; [done|].
  apply not_elem_of_cons in Hnotin as [Hne Hnotin]. simpl.
  destruct (String.eqb_spec y x) as [->|_]; [done|]. by apply IH.
Qed.

Lemma indexOf_from_first (l1 l2 : list string) (x : string) (k : Z) :
  x ∉ l1 → Js.indexOf_from (l1 ++ x :: l2) x k = k + Js.length l1.
Proof.
  revert k. induction l1 as [|y l1 IH]; intros k Hnotin; simpl.
  - rewrite String.eqb_refl. unfold Js.length; simpl. lia.
  - apply not_elem_of_cons in Hnotin as [Hne Hnotin].
    destruct (String.eqb_spec y x) as [->|_]; [done|].
    rewrite IH by done. unfold Js.length; simpl length. lia.
Qed.

Lemma slice_prefix {A} (a : list A) (i : Z) :
  0 ≤ i ≤ Js.length a → Js.slice a 0 (Some i) = take (Z.to_nat i) a.
Proof.
  intros Hi. unfold Js.slice, Js.relative; simpl.
  destruct (Z.ltb_spec i 0); [lia|].
  assert (0 ≤ Js.length a) by (unfold Js.length; lia).
  rewrite (Z.min_l 0), (Z.min_l i) by lia.
  f_equal. lia.
Qed.

Lemma slice_suffix {A} (a : list A) (i : Z) :
  0 ≤ i ≤ Js.length a → Js.slice a i None = drop (Z.to_nat i) a.
Proof.
  intros Hi. unfold Js.slice, Js.relative; simpl.
  destruct (Z.ltb_spec i 0); [lia|].
  destruct (Z.ltb_spec (Js.length a) 0); [unfold Js.length in *; lia|].
  rewrite (Z.min_l i) by lia. apply take_ge.
  rewrite length_drop. unfold Js.length in *. lia.
Qed.

Lemma toggled_absent (selectedIds : list string) (id : string) :
  id ∉ selectedIds → toggled selectedIds id = selectedIds ++ [id].
Proof.
  intros Hnotin. unfold toggled, Js.indexOf.
  by rewrite indexOf_from_absent.
Qed.

Lemma toggled_present (l1 l2 : list string) (id : string) :
  id ∉ l1 → toggled (l1 ++ id :: l2) id = l1 ++ l2.
Proof.
  intros Hnotin. unfold toggled, Js.indexOf.
  rewrite indexOf_from_first by done.
  assert (Js.length (l1 ++ id :: l2) = Js.length l1 + 1 + Js.length l2) as Hlen.
  { unfold Js.length. rewrite length_app; simpl. lia. }
  assert (0 ≤ Js.length l1 ∧ 0 ≤ Js.length l2) as [? ?]
    by (unfold Js.length; lia).
  destruct (Z.eqb_spec (0 + Js.length l1) (-1)); [lia|].
  rewrite slice_prefix, slice_suffix by lia. unfold Js.concat.
  replace (Z.to_nat (0 + Js.length l1)) with (length l1)
    by (unfold Js.length; lia).
  replace (Z.to_nat (0 + Js.length l1 + 1)) with (length (l1 ++ [id]))
    by (rewrite length_app; unfold Js.length; simpl; lia).
  rewrite take_app_length.
  by rewrite (cons_middle id l1 l2), (assoc_L (++)), drop_app_length.
Qed.

(** C8.  [handleClick] with selection enabled hands the new selection to
    [updateSelection]: with radio buttons it is the clicked id alone;
    with check boxes, the selection followed by the id if the id is not in
    it, and otherwise the selection without the first position that holds
    the id, the other ids in their order.  So the click on "id2" in
    "id1", "id2", "id3" gives "id1", "id3". *)
Theorem handleClick_selection (this : CustomTable) (id : string) :
  Js.is_true (Props.disableSelection (props this)) = false →
  Props.updateSelection (props this) = true →
  let selectedIds := default [] (Props.selectedIds (props this)) in
  let radioMode := default false (Props.useRadioButtons (props this)) in
  let updates newSelected :=
    (handleClick id this =
       (Return tt,
        with_trace (trace this ++ [props_updateSelection newSelected; stopPropagation])
                   this)) in
  (radioMode = true → updates [id]) ∧
  (radioMode = false → id ∉ selectedIds → updates (selectedIds ++ [id])) ∧
  (radioMode = false → id ∈ selectedIds →
     ∃ l1 l2, selectedIds = l1 ++ id :: l2 ∧ (id ∉ l1) ∧ updates (l1 ++ l2)) ∧
  toggled ["id1"; "id2"; "id3"] "id2" = ["id1"; "id3"].
Proof.
  intros Henabled Hcallback selectedIds radioMode updates.
  assert (∀ newSelected,
    (if radioMode then [id] else toggled selectedIds id) = newSelected →
    updates newSelected) as Hupdates.
  { intros newSelected <-. unfold updates, handleClick, bind, this_props, call, ret.
    rewrite Henabled, Hcallback. fold radioMode selectedIds.
    unfold with_trace; cbn [trace props state _isMounted heap].
    by rewrite <-(assoc_L (++)). }
  split; [|split; [|split]].
  - intros Hradio. apply Hupdates. by rewrite Hradio.
  - intros Hradio Hnotin. apply Hupdates. rewrite Hradio.
    by apply toggled_absent.
  - intros Hradio Hin.
    destruct (list_elem_of_split_l _ _ Hin) as (l1 & l2 & Hsplit & Hnotin).
    exists l1, l2. split; [done|]. split; [done|].
    apply Hupdates. rewrite Hradio, Hsplit. by apply toggled_present.
  - reflexivity.
Qed.

Lemma handleClick_selection_witness :
  handleClick "id4" fresh_table =
    (Return tt,
     with_trace [props_updateSelection ["id1"; "id2"; "id3"; "id4"]; stopPropagation]
                fresh_table).
Proof.
  destruct (handleClick_selection fresh_table "id4")
    as (_ & Habsent & _); [reflexivity | reflexivity |].
  apply Habsent; [reflexivity|].
  apply (bool_decide_unpack _). vm_compute. exact I.
Defined.

(** C10.  [handleSelectAllClick] looks at [disableSelection] only.  With
    selection enabled and a checked event it hands the ids of all the rows to
    [updateSelection], whatever [useRadioButtons] is; and with radio buttons
    [render] does not draw the check box that calls it. *)
Theorem handleSelectAllClick_all_rows (this : CustomTable) :
  Js.is_true (Props.disableSelection (props this)) = false →
  Props.updateSelection (props this) = true →
  handleSelectAllClick true this =
    (Return tt,
     with_trace (trace this
                   ++ [props_updateSelection (map Row.id (Props.rows (props this)))])
                this) ∧
  (Js.is_true (Props.useRadioButtons (props this)) = true →
   selectAllCheckbox (render this) = false).
Proof.
  intros Henabled Hcallback. split.
  - unfold handleSelectAllClick, bind, this_props, call.
    by rewrite Henabled, Hcallback.
  - intros Hradio. unfold render; cbn [selectAllCheckbox].
    rewrite Hradio. apply andb_false_r.
Qed.

Lemma handleSelectAllClick_all_rows_witness :
  handleSelectAllClick true radio_table =
    (Return tt,
     with_trace [props_updateSelection ["id1"; "id2"; "id3"]] radio_table) ∧
  selectAllCheckbox (render radio_table) = false.
Proof.
  destruct (handleSelectAllClick_all_rows radio_table) as [Hall Hhidden];
    [reflexivity | reflexivity |].
  split; [exact Hall | apply Hhidden; reflexivity].
Defined.

(** ** More on the selection: the handlers with an owner that adopts *)

Lemma indexOf_absent_iff (a : list string) (x : string) :
  Js.indexOf a x = -1 ↔ x ∉ a.
Proof.
  split; [|apply indexOf_from_absent].
  intros Hindex Hin.
  destruct (list_elem_of_split_l _ _ Hin) as (l1 & l2 & -> & Hnotin).
  unfold Js.indexOf in Hindex. rewrite indexOf_from_first in Hindex by done.
  unfold Js.length in Hindex. lia.
Qed.

Lemma isSelected_run (id : string) (this : CustomTable) :
  isSelected id this = (Return (bool_decide (id ∈ selection this)), this).
Proof.
  unfold isSelected, selection, bind, this_props, ret.
  destruct (Props.selectedIds (props this)) as [selectedIds|]; simpl.
  - do 2 f_equal. destruct (Z.eqb_spec (Js.indexOf selectedIds id) (-1)) as [Heq|Hne].
    + apply indexOf_absent_iff in Heq. by rewrite bool_decide_eq_false_2.
    + rewrite bool_decide_eq_true_2; [done|].
      destruct (decide (id ∈ selectedIds)) as [|Hnotin]; [done|].
      by apply indexOf_absent_iff in Hnotin.
  - done.
Qed.

(** The selection a click hands over. *)
Lemma handleClick_run (id : string) (this : CustomTable) :
  Js.is_true (Props.disableSelection (props this)) = false →
  Props.updateSelection (props this) = true →
  handleClick id this =
    (Return tt,
     with_trace
       (trace this ++
          [props_updateSelection
             (if default false (Props.useRadioButtons (props this))
              then [id] else toggled (selection this) id);
           stopPropagation])
       this).
Proof.
  intros Henabled Hcallback.
  unfold handleClick, bind, this_props, call, ret, selection.
  rewrite Henabled, Hcallback.
  unfold with_trace; cbn [trace props state _isMounted heap].
  by rewrite <-(assoc_L (++)).
Qed.

Lemma owner_adopts_calls (this : CustomTable) (calls : list Call) :
  owner_adopts this (with_trace (trace this ++ calls) this) =
    match last (omap selection_of calls) with
    | Some selectedIds =>
        with_props (select selectedIds (props this))
                   (with_trace (trace this ++ calls) this)
    | None => with_trace (trace this ++ calls) this
    end.
Proof.
  unfold owner_adopts. cbn [trace with_trace]. by rewrite drop_app_length.
Qed.

Lemma click_run (id : string) (this : CustomTable) :
  Js.is_true (Props.disableSelection (props this)) = false →
  Props.updateSelection (props this) = true →
  let newSelected :=
    if default false (Props.useRadioButtons (props this))
    then [id] else toggled (selection this) id in
  click id this =
    with_props (select newSelected (props this))
      (with_trace (trace this ++ [props_updateSelection newSelected; stopPropagation])
                  this).
Proof.
  intros Henabled Hcallback newSelected. unfold click.
  rewrite handleClick_run by done. cbn [snd].
  by rewrite owner_adopts_calls.
Qed.

Lemma toggled_cases (selectedIds : list string) (id : string) :
  ((id ∉ selectedIds) ∧ toggled selectedIds id = selectedIds ++ [id]) ∨
  (∃ l1 l2, selectedIds = l1 ++ id :: l2 ∧ (id ∉ l1) ∧
            toggled selectedIds id = l1 ++ l2).
Proof.
  destruct (decide (id ∈ selectedIds)) as [Hin|Hnotin].
  - right. destruct (list_elem_of_split_l _ _ Hin) as (l1 & l2 & -> & Hnotin).
    exists l1, l2. by rewrite toggled_present.
  - left. by rewrite toggled_absent.
Qed.

Lemma toggled_other (selectedIds : list string) (id x : string) :
  x ≠ id → x ∈ toggled selectedIds id ↔ x ∈ selectedIds.
Proof.
  intros Hne.
  destruct (toggled_cases selectedIds id)
    as [[_ ->]|(l1 & l2 & -> & _ & ->)]; set_solver.
Qed.

Lemma toggled_NoDup (selectedIds : list string) (id : string) :
  NoDup selectedIds →
  NoDup (toggled selectedIds id) ∧
  (id ∈ toggled selectedIds id ↔ id ∉ selectedIds).
Proof.
  intros Hnodup.
  destruct (toggled_cases selectedIds id)
    as [[Hnotin ->]|(l1 & l2 & -> & Hnotin & ->)].
  - split; [|set_solver].
    apply NoDup_app. split; [done|]. split; [set_solver|apply NoDup_singleton].
  - apply NoDup_app in Hnodup as (Hl1 & Hdisjoint & Hl2).
    apply NoDup_cons in Hl2 as [Hnotin2 Hl2].
    split; [apply NoDup_app; set_solver | set_solver].
Qed.

(** X1.  With check boxes, an owner that adopts the selection and a selection
    without repetition, a click on a row flips whether that row is selected,
    leaves every other row as it was, and the selection stays without
    repetition. *)
Theorem click_flips_row (this : CustomTable) (id : string) :
  Js.is_true (Props.disableSelection (props this)) = false →
  Props.updateSelection (props this) = true →
  default false (Props.useRadioButtons (props this)) = false →
  NoDup (selection this) →
  NoDup (selection (click id this)) ∧
  ∀ x b, fst (isSelected x this) = Return b →
         fst (isSelected x (click id this)) =
           Return (if String.eqb x id then negb b else b).
Proof.
  intros Henabled Hcallback Hboxes Hnodup.
  rewrite click_run by done. rewrite Hboxes.
  change (selection (with_props _ _)) with (toggled (selection this) id).
  destruct (toggled_NoDup (selection this) id Hnodup) as [Hnodup' Hflip].
  split; [done|].
  intros x b. rewrite !isSelected_run; cbn [fst]. intros [= <-].
  change (selection (with_props _ _)) with (toggled (selection this) id).
  f_equal. destruct (String.eqb_spec x id) as [->|Hne].
  - destruct (decide (id ∈ selection this)).
    + rewrite (bool_decide_eq_true_2 (id ∈ selection this)) by done.
      apply bool_decide_eq_false_2. by rewrite Hflip; intros [].
    + rewrite (bool_decide_eq_false_2 (id ∈ selection this)) by done.
      apply bool_decide_eq_true_2. by rewrite Hflip.
  - apply bool_decide_ext. by apply toggled_other.
Qed.

Lemma click_flips_row_witness :
  fst (isSelected "id2" fresh_table) = Return true ∧
  fst (isSelected "id2" (click "id2" fresh_table)) = Return false ∧
  fst (isSelected "id3" (click "id2" fresh_table)) = Return true.
Proof.
  destruct (click_flips_row fresh_table "id2") as [_ Hflip];
    [reflexivity | reflexivity | reflexivity
    | apply (bool_decide_unpack _); vm_compute; exact I |].
  split; [reflexivity|]. split.
  - apply (Hflip "id2" true). reflexivity.
  - apply (Hflip "id3" true). reflexivity.
Defined.

(** X2.  With check boxes and an owner that adopts the selection, two clicks
    on a row that is not selected give back the selection as it was; two
    clicks on a selected row of a selection without repetition move its id to
    the end of the selection. *)
Theorem click_twice (this : CustomTable) (id : string) :
  Js.is_true (Props.disableSelection (props this)) = false →
  Props.updateSelection (props this) = true →
  default false (Props.useRadioButtons (props this)) = false →
  (id ∉ selection this →
     selection (click id (click id this)) = selection this) ∧
  (∀ l1 l2, selection this = l1 ++ id :: l2 → NoDup (selection this) →
     selection (click id (click id this)) = l1 ++ l2 ++ [id]).
Proof.
  intros Henabled Hcallback Hboxes.
  assert (selection (click id (click id this))
          = toggled (toggled (selection this) id) id) as ->.
  { rewrite (click_run id this) by done. rewrite Hboxes.
    rewrite click_run by done. cbn [props with_props select Props.useRadioButtons].
    by rewrite Hboxes. }
  split.
  - intros Hnotin. rewrite (toggled_absent _ _ Hnotin).
    rewrite toggled_present by done. apply app_nil_r.
  - intros l1 l2 Hsplit Hnodup. rewrite Hsplit in Hnodup |- *.
    apply NoDup_app in Hnodup as (_ & Hdisjoint & Hl2).
    apply NoDup_cons in Hl2 as [Hnotin2 _].
    assert (id ∉ l1) as Hnotin1 by set_solver.
    rewrite toggled_present by done.
    rewrite toggled_absent by set_solver. by rewrite <-(assoc_L (++)).
Qed.

Lemma click_twice_witness :
  selection (click "id4" (click "id4" fresh_table)) = ["id1"; "id2"; "id3"] ∧
  selection (click "id2" (click "id2" fresh_table)) = ["id1"; "id3"; "id2"].
Proof.
  destruct (click_twice fresh_table "id4") as [Hback _];
    [reflexivity | reflexivity | reflexivity |].
  destruct (click_twice fresh_table "id2") as [_ Hmoved];
    [reflexivity | reflexivity | reflexivity |].
  split.
  - apply Hback. apply (bool_decide_unpack _). vm_compute. exact I.
  - apply (Hmoved ["id1"] ["id3"]); [reflexivity|].
    apply (bool_decide_unpack _). vm_compute. exact I.
Defined.

(** X3.  When the owner's selection holds an id more than once, a click on
    that row hands over a selection that still holds the id: the row stays
    selected, because only the first position of the id is removed. *)
Theorem click_repeated_id (this : CustomTable) (id : string) (l1 l2 : list string) :
  Js.is_true (Props.disableSelection (props this)) = false →
  Props.updateSelection (props this) = true →
  default false (Props.useRadioButtons (props this)) = false →
  selection this = l1 ++ id :: l2 → id ∈ l2 →
  fst (isSelected id this) = Return true ∧
  fst (isSelected id (click id this)) = Return true.
Proof.
  intros Henabled Hcallback Hboxes Hsplit Hagain.
  rewrite !isSelected_run; cbn [fst].
  rewrite click_run by done. rewrite Hboxes.
  change (selection (with_props _ _)) with (toggled (selection this) id).
  split; f_equal; apply bool_decide_eq_true_2.
  - rewrite Hsplit. set_solver.
  - rewrite Hsplit. destruct (decide (id ∈ l1)) as [Hin|Hnotin].
    + destruct (list_elem_of_split_l _ _ Hin) as (m1 & m2 & -> & Hnotin).
      rewrite <-(assoc_L (++)). cbn [app].
      rewrite toggled_present by done. set_solver.
    + rewrite toggled_present by done. set_solver.
Qed.

Lemma click_repeated_id_witness :
  fst (isSelected "id1"
         (click "id1" (with_props (select ["id1"; "id2"; "id1"] (props fresh_table))
                                  fresh_table))) = Return true.
Proof.
  destruct (click_repeated_id
              (with_props (select ["id1"; "id2"; "id1"] (props fresh_table)) fresh_table)
              "id1" [] ["id2"; "id1"]) as [_ Hstill];
    [reflexivity | reflexivity | reflexivity | reflexivity
    | apply (bool_decide_unpack _); vm_compute; exact I |].
  exact Hstill.
Defined.

(** X4.  With radio buttons and an owner that adopts the selection, after a
    click exactly the clicked row is selected, whatever was selected before;
    a second click on it does not clear the selection. *)
Theorem click_radio (this : CustomTable) (id : string) :
  Js.is_true (Props.disableSelection (props this)) = false →
  Props.updateSelection (props this) = true →
  default false (Props.useRadioButtons (props this)) = true →
  (∀ x, fst (isSelected x (click id this)) = Return (String.eqb x id)) ∧
  selection (click id (click id this)) = [id].
Proof.
  intros Henabled Hcallback Hradio.
  assert (selection (click id this) = [id]) as Hone.
  { rewrite click_run by done. by rewrite Hradio. }
  split.
  - intros x. rewrite isSelected_run, Hone; cbn [fst]. f_equal.
    destruct (String.eqb_spec x id) as [->|Hne].
    + apply bool_decide_eq_true_2. set_solver.
    + apply bool_decide_eq_false_2. set_solver.
  - rewrite (click_run id this) by done. rewrite Hradio.
    rewrite click_run by done.
    cbn [props with_props select Props.useRadioButtons]. by rewrite Hradio.
Qed.

Lemma click_radio_witness :
  fst (isSelected "id2" (click "id3" radio_table)) = Return false ∧
  fst (isSelected "id3" (click "id3" radio_table)) = Return true.
Proof.
  destruct (click_radio radio_table "id3") as [Hone _];
    [reflexivity | reflexivity | reflexivity |].
  split; [apply (Hone "id2") | apply (Hone "id3")].
Defined.

Lemma handleSelectAllClick_run (checked : bool) (this : CustomTable) :
  Js.is_true (Props.disableSelection (props this)) = false →
  Props.updateSelection (props this) = true →
  handleSelectAllClick checked this =
    (Return tt,
     with_trace
       (trace this ++
          [props_updateSelection
             (if checked then map Row.id (Props.rows (props this)) else [])])
       this).
Proof.
  intros Henabled Hcallback.
  unfold handleSelectAllClick, bind, this_props, call.
  by rewrite Henabled, Hcallback.
Qed.

(** X5.  With an owner that adopts the selection, after
    [handleSelectAllClick] with a checked event every row of the table is
    selected, and after an unchecked event no row is.  Where [render] draws
    the check box of the header (check boxes, selection enabled), it is then
    drawn checked (for a table that has rows), respectively unchecked, and
    not indeterminate; with radio buttons [render] draws no such box. *)
Theorem select_all_round_trip (this : CustomTable) :
  Js.is_true (Props.disableSelection (props this)) = false →
  Props.updateSelection (props this) = true →
  (∀ row, row ∈ Props.rows (props this) →
     fst (isSelected (Row.id row) (click_all true this)) = Return true) ∧
  (∀ id, fst (isSelected id (click_all false this)) = Return false) ∧
  (Js.is_true (Props.useRadioButtons (props this)) = false →
     headerCheckbox (click_all true this) =
       Some {| indeterminate := false;
               checked := negb (Js.length (Props.rows (props this)) =? 0) |} ∧
     headerCheckbox (click_all false this) =
       Some {| indeterminate := false; checked := false |}) ∧
  (Js.is_true (Props.useRadioButtons (props this)) = true →
     headerCheckbox (click_all true this) = None ∧
     headerCheckbox (click_all false this) = None).
Proof.
  intros Henabled Hcallback.
  assert (∀ checked,
    click_all checked this =
      with_props
        (select (if checked then map Row.id (Props.rows (props this)) else [])
                (props this))
        (with_trace
           (trace this ++
              [props_updateSelection
                 (if checked then map Row.id (Props.rows (props this)) else [])])
           this)) as Hall.
  { intros checked. unfold click_all. rewrite handleSelectAllClick_run by done.
    cbn [snd]. by rewrite owner_adopts_calls. }
  rewrite !Hall. split; [|split; [|split]].
  - intros row Hrow. rewrite isSelected_run; cbn [fst]. f_equal.
    apply bool_decide_eq_true_2.
    change (selection (with_props _ _)) with (map Row.id (Props.rows (props this))).
    apply list_elem_of_fmap. by exists row.
  - intros id. by rewrite isSelected_run.
  - intros Hboxes. unfold headerCheckbox.
    cbn [props with_props select Props.selectedIds Props.rows
         Props.disableSelection Props.useRadioButtons default from_option id].
    rewrite Henabled, Hboxes. cbn [negb andb].
    replace (Js.length (map Row.id (Props.rows (props this))))
      with (Js.length (Props.rows (props this)))
      by (unfold Js.length; by rewrite length_map).
    by rewrite Z.ltb_irrefl, Z.eqb_refl, andb_false_r, andb_true_r.
  - intros Hradio. unfold headerCheckbox.
    cbn [props with_props select Props.disableSelection Props.useRadioButtons].
    by rewrite Hradio, andb_false_r.
Qed.

Lemma select_all_round_trip_witness :
  fst (isSelected "id3"
         (click_all true
            (with_props (select [] (props fresh_table)) fresh_table))) = Return true ∧
  headerCheckbox
    (click_all true (with_props (select [] (props fresh_table)) fresh_table)) =
    Some {| indeterminate := false; checked := true |}.
Proof.
  destruct (select_all_round_trip
              (with_props (select [] (props fresh_table)) fresh_table))
    as (Hrows & _ & Hheader & _); [reflexivity | reflexivity |].
  split.
  - apply (Hrows {| Row.error := None; Row.id := "id3"; Row.otherFields := [] |}).
    apply list_elem_of_lookup. by exists 2%nat.
  - apply Hheader. reflexivity.
Defined.

(** ** More on navigation *)

Lemma commit_page_isMounted (target m : Z) (this : CustomTable) :
  _isMounted (commit_page target m this) = _isMounted this.
Proof. unfold commit_page. by destruct (_isMounted this) eqn:E. Qed.

Lemma commit_page_props (target m : Z) (this : CustomTable) :
  props (commit_page target m this) = props this.
Proof. unfold commit_page. by destruct (_isMounted this). Qed.

Lemma page_changed_isMounted (offset : Z) (this : CustomTable) :
  _isMounted (page_changed offset this) =
    _isMounted this && negb (unmounts (Props.reload (props this) (page_request offset this))).
Proof.
  unfold page_changed. destruct (settles _) as [r|e]; [|done].
  destruct (Js.truthy r); [destruct (_ =? _)|];
    by rewrite commit_page_isMounted.
Qed.

Lemma page_changed_props (offset : Z) (this : CustomTable) :
  props (page_changed offset this) = props this.
Proof.
  unfold page_changed. destruct (settles _) as [r|e]; [|done].
  destruct (Js.truthy r); [destruct (_ =? _)|];
    by rewrite commit_page_props.
Qed.

(** The token list after [_pageChanged(offset)]. *)
Lemma page_changed_tokens (offset : Z) (this : CustomTable) :
  tokenList (state (page_changed offset this)) = tokenList (state this) ∧
  tokens (page_changed offset this) =
    match settles (Props.reload (props this) (page_request offset this)) with
    | Resolved r =>
        if Js.truthy r && (newCurrentPage (state this) offset + 1 =? Js.length (tokens this))
        then tokens this ++ [r] else tokens this
    | Rejected _ => tokens this
    end.
Proof.
  unfold page_changed. destruct (settles _) as [r|e].
  - destruct (Js.truthy r); [destruct (_ =? _)|]; cbn [andb];
      rewrite commit_page_tokenList, commit_page_tokens;
      rewrite ?tokens_with_heap; cbn [state with_heap];
      rewrite ?reloaded_tokenList, ?reloaded_tokens, ?deref_insert; done.
  - by rewrite reloaded_tokenList, reloaded_tokens.
Qed.

(** The page and the bound after [_pageChanged(offset)] on a table that is
    mounted and stays so, when the promise resolves. *)
Lemma page_changed_cursor (offset : Z) (this : CustomTable) (r : string) :
  _isMounted this = true →
  Props.reload (props this) (page_request offset this)
    = {| unmounts := false; settles := Resolved r |} →
  currentPage (state (page_changed offset this)) = newCurrentPage (state this) offset ∧
  maxPageIndex (state (page_changed offset this)) =
    (if Js.truthy r then maxPageIndex (state this)
     else newCurrentPage (state this) offset) ∧
  isBusy (state (page_changed offset this)) = false ∧
  pageSize (state (page_changed offset this)) = pageSize (state this).
Proof.
  intros Hmounted Hfetch. unfold page_changed. rewrite Hfetch; cbn [settles].
  destruct (Js.truthy r); [destruct (_ =? _)|];
    unfold commit_page, reloaded; cbn [_isMounted with_heap];
    rewrite Hmounted, Hfetch; done.
Qed.

(** X7.  The paging buttons never ask for a page outside the known range: on
    a mounted table with a responsive data source and the current page
    between 0 and the bound, an enabled back button leads to the page
    before, an enabled forward button to the page after; where a button is
    drawn disabled, the same call would stay on the current page. *)
Theorem buttons_never_clamp (this : CustomTable) :
  0 ≤ currentPage (state this) ≤ maxPageIndex (state this) →
  _isMounted this = true →
  responsive (props this) →
  currentPage (state (perform this Back)) =
    (if backDisabled (render this) then currentPage (state this)
     else currentPage (state this) - 1) ∧
  currentPage (state (perform this Forward)) =
    (if forwardDisabled (render this) then currentPage (state this)
     else currentPage (state this) + 1).
Proof.
  intros Hrange Hmounted Hresponsive.
  assert (∀ offset, currentPage (state (snd (_pageChanged offset this)))
                    = newCurrentPage (state this) offset) as Hpage.
  { intros offset. rewrite pageChanged_run; cbn [snd].
    destruct (Hresponsive (page_request offset this)) as [Hstays [r Hres]].
    apply (page_changed_cursor offset this r Hmounted).
    destruct (Props.reload _ _); simpl in *; congruence. }
  cbn [perform]. rewrite !Hpage. unfold render, newCurrentPage; simpl.
  split.
  - destruct (Z.eqb_spec (currentPage (state this)) 0); lia.
  - destruct (Z.leb_spec (maxPageIndex (state this)) (currentPage (state this))); lia.
Qed.

Lemma buttons_never_clamp_witness :
  currentPage (state table_on_page_1) = 1 ∧
  currentPage (state (perform table_on_page_1 Back)) = 0 ∧
  currentPage (state (perform table_on_page_1 Forward)) = 2.
Proof.
  split; [reflexivity|].
  apply (buttons_never_clamp table_on_page_1); [vm_compute; by split | reflexivity |].
  intros request. split; [reflexivity | by exists ""].
Defined.

(** X8.  Whatever the offset and however the promise settles,
    [_pageChanged] keeps the page size and the array the state refers to,
    never raises [maxPageIndex], and never removes or rewrites a recorded
    token: the old token list is a prefix of the new one, which is longer by
    one entry at most. *)
Theorem navigation_monotone (this : CustomTable) (offset : Z) :
  let this' := snd (_pageChanged offset this) in
  pageSize (state this') = pageSize (state this) ∧
  tokenList (state this') = tokenList (state this) ∧
  maxPageIndex (state this') ≤ maxPageIndex (state this) ∧
  tokens this `prefix_of` tokens this' ∧
  Js.length (tokens this') ≤ Js.length (tokens this) + 1.
Proof.
  intros this'. subst this'. rewrite pageChanged_run; cbn [snd].
  destruct (page_changed_tokens offset this) as [Href Htokens].
  split; [|split; [done|split; [|rewrite Htokens; split]]].
  - unfold page_changed.
    destruct (settles _) as [r|e];
      [destruct (Js.truthy r); [destruct (_ =? _)|]|];
      unfold commit_page, reloaded; cbn [_isMounted with_heap];
      destruct (_isMounted this), (unmounts _); done.
  - assert (newCurrentPage (state this) offset ≤ maxPageIndex (state this))
      by (unfold newCurrentPage; lia).
    unfold page_changed.
    destruct (settles _) as [r|e];
      [destruct (Js.truthy r); [destruct (_ =? _)|]|];
      unfold commit_page, reloaded; cbn [_isMounted with_heap];
      destruct (_isMounted this), (unmounts _); simpl; lia.
  - destruct (settles _) as [r|e]; [|done].
    destruct (_ && _); [by apply prefix_app_r|done].
  - destruct (settles _) as [r|e]; [|lia].
    destruct (_ && _); [|lia].
    unfold Js.length. rewrite length_app; simpl. lia.
Qed.

(** X9.  [reload()] without an argument fetches the current page again, with
    the page size and the page token of the state, and gives the
    next-page token to its caller only: the current page, the bound, the
    page size, the token list and every array stay as they were, also when
    the token differs from the recorded one or is empty. *)
Theorem refresh_keeps_cursor (this : CustomTable) :
  let this' := snd (reload no_request this) in
  fst (reload no_request this) =
    completion_of
      (settles (Props.reload (props this)
                  {| pageSize_ := pageSize (state this);
                     pageToken_ := Js.index (tokens this) (currentPage (state this)) |})) ∧
  trace this' =
    trace this ++
      [props_reload {| pageSize_ := pageSize (state this);
                       pageToken_ := Js.index (tokens this) (currentPage (state this)) |}] ∧
  currentPage (state this') = currentPage (state this) ∧
  maxPageIndex (state this') = maxPageIndex (state this) ∧
  pageSize (state this') = pageSize (state this) ∧
  tokenList (state this') = tokenList (state this) ∧
  heap this' = heap this.
Proof.
  intros this'. subst this'. rewrite reload_run; cbn [fst snd].
  change (reload_request no_request this)
    with {| pageSize_ := pageSize (state this);
            pageToken_ := Js.index (tokens this) (currentPage (state this)) |}.
  rewrite reloaded_currentPage, reloaded_maxPageIndex, reloaded_tokenList.
  do 4 (split; [done|]). split; [|done].
  unfold reloaded; simpl. by destruct (_isMounted this).
Qed.

(** ** After teardown *)

Lemma reloaded_unmounted (request : Request) (this : CustomTable) :
  _isMounted this = false →
  state (reloaded request this) = state this ∧
  _isMounted (reloaded request this) = false.
Proof. intros Hgone. unfold reloaded; simpl. by rewrite Hgone. Qed.

Lemma step_unmounted (this : CustomTable) (ev : Event) :
  _isMounted this = false →
  (∃ a, heap this !! tokenList (state this) = Some a) →
  state (step this ev) = state this ∧
  _isMounted (step this ev) = false ∧
  (∃ a, heap (step this ev) !! tokenList (state this) = Some a) ∧
  tokens this `prefix_of` tokens (step this ev).
Proof.
  intros Hgone [a Ha].
  assert (∀ offset,
    state (snd (_pageChanged offset this)) = state this ∧
    _isMounted (snd (_pageChanged offset this)) = false ∧
    (∃ a, heap (snd (_pageChanged offset this)) !! tokenList (state this) = Some a) ∧
    tokens this `prefix_of` tokens (snd (_pageChanged offset this))) as Hpage.
  { intros offset.
    destruct (reloaded_unmounted (page_request offset this) this Hgone) as [Hs Hm].
    split; [by rewrite pageChanged_after_unmount_state|].
    rewrite pageChanged_run; cbn [snd].
    split; [by rewrite page_changed_isMounted, Hgone|].
    destruct (page_changed_tokens offset this) as [Href Htokens].
    split.
    - unfold page_changed.
      destruct (settles _) as [r|e]; [|by exists a].
      destruct (Js.truthy r); [destruct (_ =? _)|];
        rewrite commit_page_heap; cbn [heap with_heap reloaded];
        rewrite ?lookup_insert_eq; eauto.
    - rewrite Htokens. destruct (settles _) as [r|e]; [|done].
      destruct (_ && _); [by apply prefix_app_r|done]. }
  destruct ev as [p| |offset|n|lr|checked|id|]; cbn [step].
  - by eauto.
  - apply Hpage.
  - apply Hpage.
  - destruct (reloaded_unmounted (size_request n) this Hgone) as [Hs Hm].
    destruct (requestRowsPerPage_after_unmount this n) as [Hstate Htokens];
      [by exists a | done |].
    split; [by rewrite Hstate|].
    rewrite requestRowsPerPage_run in Htokens |- *.
    destruct (settles _) as [r|e]; cbn [snd] in *.
    + unfold reset_to_first_page in *. rewrite Hm in *.
      split; [done|]. split; [|by rewrite Htokens].
      exists a. cbn -[fresh dom]. rewrite lookup_insert_ne; [done|].
      intros Heq. apply (is_fresh (dom (heap this))).
      rewrite Heq. apply elem_of_dom. by exists a.
    + split; [done|]. split; [by exists a|by rewrite Htokens].
  - rewrite reload_run; cbn [snd].
    destruct (reloaded_unmounted (reload_request lr this) this Hgone) as [Hs Hm].
    rewrite reloaded_tokens. by eauto.
  - unfold handleSelectAllClick, bind, this_props, ret, call.
    destruct (Js.is_true _); [by eauto|].
    destruct (Props.updateSelection _); by eauto.
  - unfold handleClick, bind, this_props, ret, call.
    destruct (Js.is_true _); [by eauto|].
    destruct (Props.updateSelection _); by eauto.
  - by eauto.
Qed.

(** X10.  Teardown is final for the state record: once the table is
    unmounted, no sequence of events (navigation, change of page size,
    reload, clicks, new props, promises that resolve or reject) changes
    [currentPage], [isBusy], [maxPageIndex], [pageSize] or the reference
    [tokenList], and the table is never mounted again.  The array of the
    token list can still grow, but it keeps what it held. *)
Theorem unmounted_is_frozen (this : CustomTable) (evs : list Event) :
  _isMounted this = false →
  is_Some (heap this !! tokenList (state this)) →
  state (run this evs) = state this ∧
  _isMounted (run this evs) = false ∧
  tokens this `prefix_of` tokens (run this evs).
Proof.
  revert this. induction evs as [|ev evs IH]; intros this Hgone Harray; [done|].
  destruct (step_unmounted this ev Hgone) as (Hstate & Hgone' & Harray' & Hprefix);
    [by destruct Harray as [a Ha]; exists a|].
  destruct (IH (step this ev)) as (Hstate'' & Hgone'' & Hprefix'');
    [done | by rewrite Hstate | ].
  cbn [run foldl]. fold (run (step this ev) evs).
  split; [congruence|]. split; [done|]. by etrans.
Qed.

Lemma unmounted_is_frozen_witness :
  state (run (snd (componentWillUnmount table_on_page_1))
             [PageChanged (-1); RequestRowsPerPage 50; DidMount])
    = state table_on_page_1.
Proof.
  apply (unmounted_is_frozen (snd (componentWillUnmount table_on_page_1)));
    [reflexivity | by eexists].
Defined.

(** ** The token list when the operations are run in turn *)

Lemma index_is_Some {A} (a : list A) (i : Z) :
  0 ≤ i < Js.length a → is_Some (Js.index a i).
Proof.
  intros Hi. unfold Js.index.
  destruct (Z.leb_spec 0 i); [|lia].
  apply lookup_lt_is_Some. unfold Js.length in Hi. lia.
Qed.

Lemma requested_tokens_snoc (t : list Call) (request : Request) :
  requested_tokens (t ++ [props_reload request])
    = requested_tokens t ++ [pageToken_ request].
Proof. unfold requested_tokens. by rewrite omap_app. Qed.

(** One [_pageChanged], run to its end, on a mounted table whose target page
    has a token. *)
Lemma page_step_in_turn (offset : Z) (this : CustomTable) :
  _isMounted this = true →
  responsive (props this) →
  0 ≤ maxPageIndex (state this) →
  newCurrentPage (state this) offset + 1 ≤ Js.length (tokens this) →
  Forall is_Some (requested_tokens (trace this)) →
  let this' := page_changed offset this in
  _isMounted this' = true ∧
  responsive (props this') ∧
  isBusy (state this') = false ∧
  0 ≤ currentPage (state this') ≤ maxPageIndex (state this') ∧
  currentPage (state this') + 1 ≤ Js.length (tokens this') ∧
  (currentPage (state this') < maxPageIndex (state this') →
   currentPage (state this') + 2 ≤ Js.length (tokens this')) ∧
  Forall is_Some (requested_tokens (trace this')).
Proof.
  intros Hmounted Hresponsive Hmax Htoken Htrace this'. subst this'.
  destruct (Hresponsive (page_request offset this)) as [Hstays [r Hres]].
  assert (Props.reload (props this) (page_request offset this)
          = {| unmounts := false; settles := Resolved r |}) as Hfetch
    by (destruct (Props.reload _ _); simpl in *; congruence).
  pose proof (newCurrentPage_range (state this) offset Hmax) as Hrange.
  destruct (page_changed_cursor offset this r Hmounted Hfetch)
    as (Hcur & Hbound & Hbusy & _).
  destruct (page_changed_tokens offset this) as [_ Htokens].
  rewrite Hres in Htokens.
  rewrite page_changed_isMounted, page_changed_props, page_changed_trace,
    requested_tokens_snoc, Hmounted, Hstays, Hcur, Hbound, Htokens.
  split; [done|]. split; [done|]. split; [done|].
  assert (Forall is_Some (requested_tokens (trace this)
                            ++ [pageToken_ (page_request offset this)])) as Htrace'.
  { apply Forall_app. split; [done|]. apply Forall_singleton.
    apply index_is_Some. lia. }
  destruct (Js.truthy r); cbn [andb].
  - destruct (Z.eqb_spec (newCurrentPage (state this) offset + 1)
                         (Js.length (tokens this))) as [Heq|Hne].
    + assert (Js.length (tokens this ++ [r]) = Js.length (tokens this) + 1) as ->
        by (unfold Js.length; rewrite length_app; simpl; lia).
      repeat split; try done; lia.
    + repeat split; try done; lia.
  - repeat split; try done; lia.
Qed.

Lemma used_in_turn_invariant (this : CustomTable) :
  used_in_turn this →
  _isMounted this = true ∧
  responsive (props this) ∧
  isBusy (state this) = false ∧
  0 ≤ currentPage (state this) ≤ maxPageIndex (state this) ∧
  currentPage (state this) + 1 ≤ Js.length (tokens this) ∧
  (currentPage (state this) < maxPageIndex (state this) →
   currentPage (state this) + 2 ≤ Js.length (tokens this)) ∧
  Forall is_Some (requested_tokens (trace this)).
Proof.
  induction 1 as [p Hresponsive|this g Huse IH Hprops].
  - unfold componentDidMount. rewrite pageChanged_run; cbn [snd].
    apply page_step_in_turn;
      solve [ done
            | unfold tokens, constructor, deref; cbn -[fresh dom];
              by rewrite lookup_singleton_eq ].
  - destruct IH as (Hmounted & Hresponsive & Hbusy & Hrange & Hlen & Hnext & Htrace).
    destruct g as [| |n| |p]; cbn [perform].
    + rewrite pageChanged_run; cbn [snd].
      apply page_step_in_turn; try done; [lia|]. unfold newCurrentPage. lia.
    + rewrite pageChanged_run; cbn [snd].
      apply page_step_in_turn; try done; [lia|]. unfold newCurrentPage. lia.
    + rewrite requestRowsPerPage_run.
      destruct (Hresponsive (size_request n)) as [Hstays [r Hres]].
      rewrite Hres; cbn [snd].
      unfold reset_to_first_page, reloaded. rewrite Hmounted, Hstays.
      cbn -[fresh dom]. unfold tokens; cbn -[fresh dom].
      rewrite deref_insert, requested_tokens_snoc.
      split; [done|]. split; [done|]. split; [done|].
      assert (Forall is_Some (requested_tokens (trace this)
                                ++ [pageToken_ (size_request n)])) as Htrace'
        by (apply Forall_app; split; [done|]; by apply Forall_singleton).
      destruct (Js.truthy r); split_and!; try done; unfold Js.length; simpl; lia.
    + rewrite reload_run; cbn [snd].
      destruct (Hresponsive (reload_request no_request this)) as [Hstays _].
      rewrite reloaded_tokens. unfold reloaded. rewrite Hmounted, Hstays.
      cbn [props state _isMounted trace currentPage maxPageIndex isBusy andb negb].
      rewrite requested_tokens_snoc.
      split_and!; try done; try lia.
      apply Forall_app. split; [done|]. apply Forall_singleton.
      apply index_is_Some. lia.
    + split; [done|]. split; [by apply Hprops|done].
Qed.

(** X11.  When the operations of a table are run in turn (the first fetch
    has settled before the first gesture, and each back, forward, page-size,
    refresh or new-props event starts only after the one before has run to
    its end, all promises resolving and no unmount), then whenever the next
    event starts the table is not busy, the token list has an entry for the
    current page, and no call of [props.reload] so far was handed an
    undefined page token.  The component does not enforce that order
    itself. *)
Theorem tokens_defined_in_turn (this : CustomTable) :
  used_in_turn this →
  isBusy (state this) = false ∧
  0 ≤ currentPage (state this) < Js.length (tokens this) ∧
  is_Some (Js.index (tokens this) (currentPage (state this))) ∧
  Forall is_Some (requested_tokens (trace this)).
Proof.
  intros Huse.
  destruct (used_in_turn_invariant this Huse)
    as (_ & _ & Hbusy & Hrange & Hlen & _ & Htrace).
  split; [done|]. split; [lia|]. split; [|done].
  apply index_is_Some. lia.
Qed.

Lemma tokens_defined_in_turn_witness :
  Forall is_Some
    (requested_tokens
       (trace (perform (perform (snd (componentDidMount fresh_table)) Forward) Back))).
Proof.
  assert (responsive (sample_props (resolves "T1"))) as Hresponsive
    by (intros request; split; [reflexivity | by exists "T1"]).
  apply tokens_defined_in_turn.
  do 2 (apply in_turn_gesture; [|discriminate]).
  by apply in_turn_mounted.
Defined.




(** ** The list page of artifacts *)

Lemma split_nonempty (sep : Ascii.ascii) (s : string) :
  ∃ piece pieces, ArtifactList.split sep s = piece :: pieces.
Proof.
  induction s as [|c s (piece & pieces & IH)]; simpl; [by eauto|].
  destruct (Ascii.eqb c sep); [by eauto|]. rewrite IH. by eauto.
Qed.

Lemma split_without (sep : Ascii.ascii) (s : string) :
  ArtifactList.contains sep s = false → ArtifactList.split sep s = [s].
Proof.
  induction s as [|c s IH]; simpl; [done|].
  intros [Hc Hs]%orb_false_iff. rewrite Hc, IH; done.
Qed.

Lemma split_first (sep : Ascii.ascii) (s rest : string) :
  ArtifactList.contains sep s = false →
  ArtifactList.split sep (s +:+ String sep rest) = s :: ArtifactList.split sep rest.
Proof.
  induction s as [|c s IH]; simpl.
  - intros _. by rewrite Ascii.eqb_refl.
  - intros [Hc Hs]%orb_false_iff. rewrite Hc, IH; done.
Qed.

Lemma contains_first (sep : Ascii.ascii) (s : string) :
  ArtifactList.contains sep s = true →
  ∃ s1 s2, s = s1 +:+ String sep s2 ∧ ArtifactList.contains sep s1 = false.
Proof.
  induction s as [|c s IH]; simpl; [done|].
  destruct (Ascii.eqb_spec c sep) as [->|Hne]; simpl.
  - intros _. by exists EmptyString, s.
  - intros (s1 & s2 & -> & Hs1)%IH. exists (String c s1), s2. split; [done|].
    simpl. rewrite Hs1. by destruct (Ascii.eqb_spec c sep).
Qed.

Lemma append_assoc (s1 s2 s3 : string) :
  (s1 +:+ s2) +:+ s3 = s1 +:+ (s2 +:+ s3).
Proof.
  induction s1 as [|c s1 IH]; [done|].
  change (String c ((s1 +:+ s2) +:+ s3) = String c (s1 +:+ (s2 +:+ s3))).
  by f_equal.
Qed.

(** X13.  The id of a row round-trips through the renderer of the name
    column: when the type written into the id holds no colon, splitting the
    id at the colons gives back that type and the artifact's id up to its
    first colon, so the whole id when the id holds no colon either. *)
Theorem row_id_round_trip
    (this : ArtifactList.Page) (a : ArtifactList.Artifact.t) :
  let type := ArtifactList.interpolate (ArtifactList.row_type this a) in
  let id := ArtifactList.interpolate (ArtifactList.Artifact.id a) in
  ArtifactList.contains ArtifactList.colon type = false →
  fst (ArtifactList.renderer_parts (ArtifactList.row_id this a)) = Some type ∧
  snd (ArtifactList.renderer_parts (ArtifactList.row_id this a))
    = head (ArtifactList.split ArtifactList.colon id) ∧
  (ArtifactList.contains ArtifactList.colon id = false →
   ArtifactList.renderer_parts (ArtifactList.row_id this a) = (Some type, Some id)).
Proof.
  intros type id Htype.
  unfold ArtifactList.renderer_parts, ArtifactList.row_id. fold type id.
  change (":" +:+ id) with (String ArtifactList.colon id).
  rewrite split_first by done. cbn [fst snd lookup list_lookup].
  destruct (split_nonempty ArtifactList.colon id) as (piece & pieces & Hid).
  split; [done|]. split; [by rewrite Hid|].
  intros Hno. by rewrite split_without.
Qed.

Lemma row_id_round_trip_witness :
  ArtifactList.row_id ArtifactList.loaded_page ArtifactList.mnist
    = "kubeflow.org/alpha/metrics:1" ∧
  ArtifactList.renderer_parts
    (ArtifactList.row_id ArtifactList.loaded_page ArtifactList.mnist)
    = (Some "kubeflow.org/alpha/metrics", Some "1").
Proof.
  split; [reflexivity|].
  destruct (row_id_round_trip ArtifactList.loaded_page ArtifactList.mnist)
    as (_ & _ & Hboth); [reflexivity|].
  apply Hboth. reflexivity.
Defined.

Lemma split_head_first (sep : Ascii.ascii) (s rest : string) :
  head (ArtifactList.split sep (s +:+ String sep rest))
    = head (ArtifactList.split sep s).
Proof.
  induction s as [|c s IH]; simpl.
  - by rewrite Ascii.eqb_refl.
  - destruct (Ascii.eqb c sep); [done|].
    destruct (split_nonempty sep (s +:+ String sep rest)) as (p1 & ps1 & H1).
    destruct (split_nonempty sep s) as (p2 & ps2 & H2).
    rewrite H1, H2 in IH |- *. simpl in *. congruence.
Qed.

(** X14.  When the type written into the id of a row holds a colon, the
    renderer of the name column does not get the type and the id back: what
    it takes for the type is the type up to its first colon, and what it
    takes for the artifact's id is a piece of the type, not the id. *)
Theorem row_id_colon_in_type
    (this : ArtifactList.Page) (a : ArtifactList.Artifact.t) :
  let type := ArtifactList.interpolate (ArtifactList.row_type this a) in
  ArtifactList.contains ArtifactList.colon type = true →
  ∃ before after,
    type = before +:+ ":" +:+ after ∧
    ArtifactList.contains ArtifactList.colon before = false ∧
    ArtifactList.renderer_parts (ArtifactList.row_id this a)
      = (Some before, head (ArtifactList.split ArtifactList.colon after)) ∧
    Some before ≠ Some type.
Proof.
  intros type Htype.
  destruct (contains_first _ _ Htype) as (before & after & Hsplit & Hbefore).
  exists before, after. split; [done|]. split; [done|].
  unfold ArtifactList.renderer_parts, ArtifactList.row_id. fold type.
  rewrite Hsplit, append_assoc.
  change (String ArtifactList.colon after +:+ ?s)
    with (String ArtifactList.colon (after +:+ s)).
  rewrite split_first by done.
  change (":" +:+ ?s) with (String ArtifactList.colon s).
  split.
  - cbn [lookup list_lookup]. f_equal.
    rewrite <-(split_head_first ArtifactList.colon after
                 (ArtifactList.interpolate (ArtifactList.Artifact.id a))).
    by destruct (ArtifactList.split _ _).
  - intros [= Heq]. rewrite Heq in Hbefore. congruence.
Qed.

Lemma row_id_colon_in_type_witness :
  ArtifactList.renderer_parts
    (ArtifactList.row_id ArtifactList.new_page
       {| ArtifactList.Artifact.id := Some "7";
          ArtifactList.Artifact.type_id := Some "ns:model";
          ArtifactList.Artifact.uri := None;
          ArtifactList.Artifact.properties := Some [] |})
  = (Some "ns", Some "model").
Proof.
  destruct (row_id_colon_in_type ArtifactList.new_page
              {| ArtifactList.Artifact.id := Some "7";
                 ArtifactList.Artifact.type_id := Some "ns:model";
                 ArtifactList.Artifact.uri := None;
                 ArtifactList.Artifact.properties := Some [] |})
    as (before & after & _ & _ & Hparts & _); [reflexivity|].
  reflexivity.
Defined.

Lemma bind_returns {A B} (m : ArtifactList.P A) (k : A → ArtifactList.P B)
    (this this' : ArtifactList.Page) (a : A) :
  m this = (Return a, this') → ArtifactList.bind m k this = k a this'.
Proof. intros Hm. unfold ArtifactList.bind. by rewrite Hm. Qed.

(** A handler that shows the error and does not throw returns. *)
Lemma showPageError_returns (base : ArtifactList.Base) (message : string)
    (err : Error) (this : ArtifactList.Page) :
  (∀ message err page,
     fst (ArtifactList.showPageError base message err page) = Return tt) →
  ArtifactList.showPageError base message err this =
    (Return tt, snd (ArtifactList.showPageError base message err this)).
Proof.
  intros Hshow. specialize (Hshow message err this).
  destruct (ArtifactList.showPageError base message err this); simpl in *.
  by subst.
Qed.

Lemma getArtifactTypes_returns
    (base : ArtifactList.Base) (api : ArtifactList.Api) (this : ArtifactList.Page) :
  (∀ message err page,
     fst (ArtifactList.showPageError base message err page) = Return tt) →
  ∃ types, fst (ArtifactList.getArtifactTypes base api this) = Return types.
Proof.
  intros Hshow.
  unfold ArtifactList.getArtifactTypes, ArtifactList.try_catch, ArtifactList.bind,
    ArtifactList.await, ArtifactList.ret, ArtifactList.throw.
  destruct (ArtifactList.listArtifactTypes api) as [[types|]|e]; simpl.
  - by eauto.
  - rewrite showPageError_returns by done. by eauto.
  - rewrite showPageError_returns by done. by eauto.
Qed.

Lemma list_reload_returns
    (base : ArtifactList.Base) (api : ArtifactList.Api) (this : ArtifactList.Page) :
  (∀ message err page,
     fst (ArtifactList.showPageError base message err page) = Return tt) →
  fst (ArtifactList.reload base api this) = Return "".
Proof.
  intros Hshow.
  assert (∀ page, ∃ page',
    ArtifactList.bind (ArtifactList.getArtifactTypes base api)
                      ArtifactList.set_artifactTypes page = (Return tt, page'))
    as Htypes.
  { intros page. unfold ArtifactList.bind.
    destruct (getArtifactTypes_returns base api page Hshow) as [types Hreturns].
    destruct (ArtifactList.getArtifactTypes base api page) as [c page']; simpl in *.
    subst c. by eexists. }
  unfold ArtifactList.reload.
  erewrite bind_returns by reflexivity.
  assert (∃ page',
    match ArtifactList.artifactTypes this with
    | Some m =>
        if (size m =? 0)%nat
        then ArtifactList.bind (ArtifactList.getArtifactTypes base api)
                               ArtifactList.set_artifactTypes
        else ArtifactList.ret tt
    | None => ArtifactList.bind (ArtifactList.getArtifactTypes base api)
                                ArtifactList.set_artifactTypes
    end this = (Return tt, page')) as [page' Hensure].
  { destruct (ArtifactList.artifactTypes this) as [m|]; [|apply Htypes].
    destruct (size m =? 0)%nat; [apply Htypes|by eexists]. }
  erewrite bind_returns by exact Hensure.
  assert (∃ page'',
    ArtifactList.try_catch
      (ArtifactList.bind
         (ArtifactList.await ArtifactList.api_listArtifacts2
            (ArtifactList.listArtifacts2 api))
         (λ response,
            ArtifactList.bind
              (ArtifactList.setStateSafe base (default [] (mjoin response)))
              (λ _, ArtifactList.clearBanner base)))
      (λ err, ArtifactList.showPageError base "Unable to retrieve Artifacts." err)
      page' = (Return tt, page'')) as [page'' Hload].
  { unfold ArtifactList.try_catch, ArtifactList.bind, ArtifactList.await.
    destruct (ArtifactList.listArtifacts2 api) as [response|e].
    - destruct (ArtifactList.setStateSafe base _ _) as [[[]|e] page1].
      + destruct (ArtifactList.clearBanner base page1) as [[[]|e] page2];
          [by eexists|].
        rewrite showPageError_returns by done. by eexists.
      + rewrite showPageError_returns by done. by eexists.
    - rewrite showPageError_returns by done. by eexists. }
  by erewrite bind_returns by exact Hload.
Qed.

(** X15.  The [reload] of the list page never rejects and always resolves
    with the empty page token, whatever the two API calls, [setStateSafe]
    and [clearBanner] do (resolve, reject or throw), provided
    [showPageError] itself does not throw: every failure ends in a call of
    [showPageError]. *)
Theorem list_reload_never_rejects
    (base : ArtifactList.Base) (api : ArtifactList.Api) (this : ArtifactList.Page) :
  (∀ message err page,
     fst (ArtifactList.showPageError base message err page) = Return tt) →
  fst (ArtifactList.reload base api this) = Return "" ∧
  ∀ cells request,
    Props.reload (ArtifactList.table_props base api cells this) request
      = {| unmounts := false; settles := Resolved "" |}.
Proof.
  intros Hshow. split; [by apply list_reload_returns|].
  intros cells request. cbn [ArtifactList.table_props Props.reload].
  by rewrite list_reload_returns.
Qed.

Lemma list_reload_never_rejects_witness :
  fst (ArtifactList.reload ArtifactList.quiet ArtifactList.failing ArtifactList.new_page)
    = Return "".
Proof.
  apply (list_reload_never_rejects
           ArtifactList.quiet ArtifactList.failing ArtifactList.new_page).
  reflexivity.
Defined.



(** X17.  The list page asks for the artifact types only while it has none:
    with a base class whose methods leave [artifactTypes] and the record of
    API calls alone (and [showPageError] not throwing), [reload] calls
    [listArtifactTypes] exactly when the page has no type map or an empty
    one, and then always [listArtifacts2], once.  The map it stores is built
    from the response, and is the empty map when the call fails or the
    response has no [artifact_types], so that the next [reload] asks
    again. *)
Theorem list_reload_types
    (base : ArtifactList.Base) (api : ArtifactList.Api) (this : ArtifactList.Page) :
  (∀ message err page,
     fst (ArtifactList.showPageError base message err page) = Return tt) →
  (∀ message err page,
     ArtifactList.artifactTypes (snd (ArtifactList.showPageError base message err page))
       = ArtifactList.artifactTypes page ∧
     ArtifactList.calls (snd (ArtifactList.showPageError base message err page))
       = ArtifactList.calls page) →
  (∀ artifacts page,
     ArtifactList.artifactTypes (snd (ArtifactList.setStateSafe base artifacts page))
       = ArtifactList.artifactTypes page ∧
     ArtifactList.calls (snd (ArtifactList.setStateSafe base artifacts page))
       = ArtifactList.calls page) →
  (∀ page,
     ArtifactList.artifactTypes (snd (ArtifactList.clearBanner base page))
       = ArtifactList.artifactTypes page ∧
     ArtifactList.calls (snd (ArtifactList.clearBanner base page))
       = ArtifactList.calls page) →
  let cached :=
    match ArtifactList.artifactTypes this with
    | Some m => negb (size m =? 0)%nat
    | None => false
    end in
  let fetched :=
    match ArtifactList.listArtifactTypes api with
    | Return (Some types) =>
        ArtifactList.Map_new
          (map (λ at_, (ArtifactList.ArtifactType.id at_, at_)) types)
    | _ => ∅
    end in
  let this' := snd (ArtifactList.reload base api this) in
  ArtifactList.calls this' =
    ArtifactList.calls this
      ++ (if cached then [] else [ArtifactList.api_listArtifactTypes])
      ++ [ArtifactList.api_listArtifacts2] ∧
  ArtifactList.artifactTypes this' =
    if cached then ArtifactList.artifactTypes this else Some fetched.
Proof.
  intros Hshow Hshow_frame Hset_frame Hclear_frame cached fetched this'.
  assert (∀ page, ∃ page',
    ArtifactList.bind (ArtifactList.getArtifactTypes base api)
                      ArtifactList.set_artifactTypes page = (Return tt, page') ∧
    ArtifactList.artifactTypes page' = Some fetched ∧
    ArtifactList.calls page' =
      ArtifactList.calls page ++ [ArtifactList.api_listArtifactTypes]) as Htypes.
  { intros page.
    unfold ArtifactList.bind at 1, ArtifactList.getArtifactTypes,
      ArtifactList.try_catch, ArtifactList.bind, ArtifactList.await,
      ArtifactList.ret, ArtifactList.throw, ArtifactList.set_artifactTypes.
    subst fetched.
    destruct (ArtifactList.listArtifactTypes api) as [[types|]|e]; simpl.
    - by eexists.
    - rewrite showPageError_returns by done. eexists. split; [done|].
      split; [done|]. simpl. by rewrite (proj2 (Hshow_frame _ _ _)).
    - rewrite showPageError_returns by done. eexists. split; [done|].
      split; [done|]. simpl. by rewrite (proj2 (Hshow_frame _ _ _)). }
  assert (∃ page',
    match ArtifactList.artifactTypes this with
    | Some m =>
        if (size m =? 0)%nat
        then ArtifactList.bind (ArtifactList.getArtifactTypes base api)
                               ArtifactList.set_artifactTypes
        else ArtifactList.ret tt
    | None => ArtifactList.bind (ArtifactList.getArtifactTypes base api)
                                ArtifactList.set_artifactTypes
    end this = (Return tt, page') ∧
    ArtifactList.artifactTypes page' =
      (if cached then ArtifactList.artifactTypes this else Some fetched) ∧
    ArtifactList.calls page' =
      ArtifactList.calls this
        ++ (if cached then [] else [ArtifactList.api_listArtifactTypes]))
    as (page' & Hensure & Htypes' & Hcalls').
  { subst cached.
    destruct (ArtifactList.artifactTypes this) as [m|] eqn:Hm; [|apply Htypes].
    destruct (size m =? 0)%nat; [apply Htypes|].
    exists this. by rewrite app_nil_r. }
  assert (∃ page'',
    ArtifactList.try_catch
      (ArtifactList.bind
         (ArtifactList.await ArtifactList.api_listArtifacts2
            (ArtifactList.listArtifacts2 api))
         (λ response,
            ArtifactList.bind
              (ArtifactList.setStateSafe base (default [] (mjoin response)))
              (λ _, ArtifactList.clearBanner base)))
      (λ err, ArtifactList.showPageError base "Unable to retrieve Artifacts." err)
      page' = (Return tt, page'') ∧
    ArtifactList.artifactTypes page'' = ArtifactList.artifactTypes page' ∧
    ArtifactList.calls page'' =
      ArtifactList.calls page' ++ [ArtifactList.api_listArtifacts2])
    as (page'' & Hload & Htypes'' & Hcalls'').
  { unfold ArtifactList.try_catch, ArtifactList.bind, ArtifactList.await.
    destruct (ArtifactList.listArtifacts2 api) as [response|e].
    - destruct (ArtifactList.setStateSafe base _ _) as [[[]|e] page1] eqn:Hset.
      + pose proof (Hset_frame (default [] (mjoin response))
          {| ArtifactList.artifacts := ArtifactList.artifacts page';
             ArtifactList.artifactTypes := ArtifactList.artifactTypes page';
             ArtifactList.calls :=
               ArtifactList.calls page' ++ [ArtifactList.api_listArtifacts2] |})
          as [Hset1 Hset2].
        rewrite Hset in Hset1, Hset2; simpl in Hset1, Hset2.
        destruct (ArtifactList.clearBanner base page1) as [[[]|e] page2] eqn:Hclear.
        * pose proof (Hclear_frame page1) as [Hc1 Hc2].
          rewrite Hclear in Hc1, Hc2; simpl in Hc1, Hc2.
          eexists. split; [done|]. split; congruence.
        * pose proof (Hclear_frame page1) as [Hc1 Hc2].
          rewrite Hclear in Hc1, Hc2; simpl in Hc1, Hc2.
          rewrite showPageError_returns by done. eexists. split; [done|].
          destruct (Hshow_frame "Unable to retrieve Artifacts." e page2) as [-> ->].
          split; congruence.
      + pose proof (Hset_frame (default [] (mjoin response))
          {| ArtifactList.artifacts := ArtifactList.artifacts page';
             ArtifactList.artifactTypes := ArtifactList.artifactTypes page';
             ArtifactList.calls :=
               ArtifactList.calls page' ++ [ArtifactList.api_listArtifacts2] |})
          as [Hset1 Hset2].
        rewrite Hset in Hset1, Hset2; simpl in Hset1, Hset2.
        rewrite showPageError_returns by done. eexists. split; [done|].
        destruct (Hshow_frame "Unable to retrieve Artifacts." e page1) as [-> ->].
        split; congruence.
    - rewrite showPageError_returns by done. eexists. split; [done|].
      by destruct (Hshow_frame "Unable to retrieve Artifacts." e
        {| ArtifactList.artifacts := ArtifactList.artifacts page';
           ArtifactList.artifactTypes := ArtifactList.artifactTypes page';
           ArtifactList.calls :=
             ArtifactList.calls page' ++ [ArtifactList.api_listArtifacts2] |})
        as [-> ->]. }
  subst this'. unfold ArtifactList.reload.
  erewrite bind_returns by reflexivity.
  erewrite bind_returns by exact Hensure.
  erewrite bind_returns by exact Hload.
  cbn [snd ArtifactList.ret].
  rewrite Hcalls'', Hcalls', Htypes'', Htypes'.
  by rewrite <-(assoc_L (++)).
Qed.

Lemma list_reload_types_witness :
  ArtifactList.calls
    (snd (ArtifactList.reload ArtifactList.quiet ArtifactList.answering
            (snd (ArtifactList.reload ArtifactList.quiet ArtifactList.failing
                    ArtifactList.new_page)))) =
  [ArtifactList.api_listArtifactTypes; ArtifactList.api_listArtifacts2;
   ArtifactList.api_listArtifactTypes; ArtifactList.api_listArtifacts2].
Proof.
  destruct (list_reload_types ArtifactList.quiet ArtifactList.answering
              (snd (ArtifactList.reload ArtifactList.quiet ArtifactList.failing
                      ArtifactList.new_page))) as [Hcalls _]; try done.
Defined.

(** ** Going back *)

(** X18.  Going back from a page whose token is recorded never changes the
    token list.  If the fetch of the page before gives a token, the forward
    button stays enabled and the next forward request carries the recorded
    token of the page the user came from.  If it gives the empty token, the
    bound drops to the page before: the forward button is disabled and the
    later pages cannot be reached any more, although their tokens are still
    in the list. *)
Theorem back_keeps_tokens (this : CustomTable) (nextPageToken : string) :
  _isMounted this = true →
  1 ≤ currentPage (state this) ≤ maxPageIndex (state this) →
  currentPage (state this) + 1 ≤ Js.length (tokens this) →
  Props.reload (props this) (page_request (-1) this)
    = {| unmounts := false; settles := Resolved nextPageToken |} →
  let this' := perform this Back in
  currentPage (state this') = currentPage (state this) - 1 ∧
  tokens this' = tokens this ∧
  (nextPageToken ≠ "" →
     forwardDisabled (render this') = false ∧
     pageToken_ (page_request 1 this')
       = Js.index (tokens this) (currentPage (state this)) ∧
     is_Some (pageToken_ (page_request 1 this'))) ∧
  (nextPageToken = "" →
     maxPageIndex (state this') = currentPage (state this) - 1 ∧
     forwardDisabled (render this') = true ∧
     newCurrentPage (state this') 1 = currentPage (state this) - 1 ∧
     is_Some (Js.index (tokens this') (currentPage (state this)))).
Proof.
  intros Hmounted Hrange Hlen Hfetch this'. subst this'. cbn [perform].
  rewrite pageChanged_run; cbn [snd].
  destruct (page_changed_cursor (-1) this nextPageToken Hmounted Hfetch)
    as (Hcur & Hmax & _ & _).
  destruct (page_changed_tokens (-1) this) as [_ Htokens].
  rewrite Hfetch in Htokens; cbn [settles] in Htokens.
  assert (newCurrentPage (state this) (-1) = currentPage (state this) - 1) as Htarget
    by (unfold newCurrentPage; lia).
  rewrite Htarget in *.
  destruct (Z.eqb_spec (currentPage (state this) - 1 + 1) (Js.length (tokens this)));
    [lia|].
  rewrite andb_false_r in Htokens.
  split; [done|]. split; [done|]. split.
  - intros Hne. apply truthy_true in Hne. rewrite Hne in Hmax.
    assert (newCurrentPage (state (page_changed (-1) this)) 1 = currentPage (state this))
      as Hforward by (unfold newCurrentPage; rewrite Hcur, Hmax; lia).
    unfold render, page_request; cbn [forwardDisabled pageToken_].
    rewrite Hforward, Htokens, Hcur, Hmax.
    split; [by destruct (Z.leb_spec (maxPageIndex (state this))
                                    (currentPage (state this) - 1)); [lia|]|].
    split; [done|]. apply index_is_Some. lia.
  - intros ->. cbn [Js.truthy String.eqb negb] in Hmax.
    unfold render, newCurrentPage; cbn [forwardDisabled].
    rewrite Hcur, Hmax, Htokens.
    split; [done|].
    split; [by destruct (Z.leb_spec (currentPage (state this) - 1)
                                    (currentPage (state this) - 1)); [|lia]|].
    split; [lia|]. apply index_is_Some. lia.
Qed.

Lemma back_keeps_tokens_witness :
  maxPageIndex (state (perform table_on_page_1 Back)) = 0 ∧
  forwardDisabled (render (perform table_on_page_1 Back)) = true ∧
  tokens (perform table_on_page_1 Back) = [""; "T1"; "T1"].
Proof.
  destruct (back_keeps_tokens table_on_page_1 "") as (_ & Htokens & _ & Hend);
    [reflexivity | vm_compute; by split | vm_compute; discriminate | reflexivity |].
  destruct Hend as (Hmax & Hdisabled & _); [reflexivity|].
  split; [exact Hmax|]. split; [exact Hdisabled|]. by rewrite Htokens.
Defined.
